(** * Two-species diffusion chamber (diffusion.py): model and verified properties

    The Python program is embedded shallowly:
    - Python numbers are [pynum]: an arbitrary-precision [int] or a binary64
      [float] (the IEEE 754 operations of the standard library's [SpecFloat]);
    - the [random] module is an oracle: a tape of raw draws that [randint] and
      [choice] consume; a run that needs more draws than the tape holds is
      [Starved] (this is how a loop that never stops shows up);
    - exceptions are an outcome of the computation monad [M];
    - what belongs to numpy and the machine rather than to the program is a
      parameter: whether an array of a given shape can be created, [log2]
      and [np.sum];
    - the display target and the order of method calls are recorded in a log. *)

From Stdlib Require Import ZArith QArith Qround Qabs List Bool String Lia.
From Stdlib Require Import Permutation.
From Stdlib Require Import SpecFloat.
Import ListNotations.

Local Open Scope Z_scope.

(** ** Python numbers *)

(** The exceptions the program can raise, and the two error kinds the
    specification names, [CapacityError] and [ConfigurationError]: the source
    defines neither and no definition below raises them. *)
Inductive exn : Type :=
| ValueError
| IndexError
| OverflowError
| ZeroDivisionError
| MemoryError
| CapacityError
| ConfigurationError.

Module PyNum.

Definition prec : Z := 53.
Definition emax : Z := 1024.

Inductive pynum : Type :=
| PInt (n : Z)
| PFloat (f : spec_float).

Definition fadd : spec_float -> spec_float -> spec_float := SFadd prec emax.
Definition fmul : spec_float -> spec_float -> spec_float := SFmul prec emax.
Definition fdiv : spec_float -> spec_float -> spec_float := SFdiv prec emax.

(** The float nearest to the integer [n] (round half to even). *)
Definition Z2F (n : Z) : spec_float := binary_normalize prec emax n 0 false.

(** [float(n)] for an int [n]: too large an int raises. *)
Definition float_of_int (n : Z) : exn + spec_float :=
  match Z2F n with
  | S754_infinity _ => inl OverflowError
  | f => inr f
  end.

Definition to_float (a : pynum) : exn + spec_float :=
  match a with
  | PInt n => float_of_int n
  | PFloat f => inr f
  end.

(** The decimal literal [n/d] read as a float: the nearest double. *)
Definition literal (n d : positive) : spec_float :=
  fdiv (S754_finite false n 0) (S754_finite false d 0).

Definition float_binop (op : spec_float -> spec_float -> spec_float)
           (a b : pynum) : exn + pynum :=
  match to_float a with
  | inl e => inl e
  | inr fa =>
      match to_float b with
      | inl e => inl e
      | inr fb => inr (PFloat (op fa fb))
      end
  end.

(** [a + b] *)
Definition add (a b : pynum) : exn + pynum :=
  match a, b with
  | PInt m, PInt n => inr (PInt (m + n))
  | _, _ => float_binop fadd a b
  end.

(** [a * b] *)
Definition mul (a b : pynum) : exn + pynum :=
  match a, b with
  | PInt m, PInt n => inr (PInt (m * n))
  | _, _ => float_binop fmul a b
  end.

Definition is_zero (f : spec_float) : bool :=
  match f with
  | S754_zero _ => true
  | _ => false
  end.

(** An int as the exact (unrounded) ratio the division rounds once. *)
Definition exact_int (n : Z) : spec_float :=
  match n with
  | Z0 => S754_zero false
  | Zpos p => S754_finite false p 0
  | Zneg p => S754_finite true p 0
  end.

(** [a / b] (true division): int / int is the correctly rounded quotient. *)
Definition truediv (a b : pynum) : exn + pynum :=
  match a, b with
  | PInt m, PInt n =>
      if n =? 0 then inl ZeroDivisionError
      else match fdiv (exact_int m) (exact_int n) with
           | S754_infinity _ => inl OverflowError
           | q => inr (PFloat q)
           end
  | _, _ =>
      match to_float a with
      | inl e => inl e
      | inr fa =>
          match to_float b with
          | inl e => inl e
          | inr fb =>
              if is_zero fb then inl ZeroDivisionError
              else inr (PFloat (fdiv fa fb))
          end
      end
  end.

(** Comparison of an int with a float is exact: the int is not rounded. *)
Definition compare_int_float (n : Z) (f : spec_float) : option comparison :=
  match f with
  | S754_nan => None
  | S754_infinity s => Some (if s then Gt else Lt)
  | S754_zero _ => Some (n ?= 0)
  | S754_finite s m e =>
      let sm := cond_Zopp s (Zpos m) in
      Some (if 0 <=? e then n ?= sm * 2 ^ e else n * 2 ^ (- e) ?= sm)
  end.

Definition compare (a b : pynum) : option comparison :=
  match a, b with
  | PInt m, PInt n => Some (m ?= n)
  | PFloat f, PFloat g => SFcompare f g
  | PInt m, PFloat g => compare_int_float m g
  | PFloat f, PInt n => option_map CompOpp (compare_int_float n f)
  end.

(** [a == b], [a < b], [a <= b], [a > b] *)
Definition eqb (a b : pynum) : bool :=
  match compare a b with Some Eq => true | _ => false end.
Definition ltb (a b : pynum) : bool :=
  match compare a b with Some Lt => true | _ => false end.
Definition leb (a b : pynum) : bool :=
  match compare a b with Some (Lt | Eq) => true | _ => false end.
Definition gtb (a b : pynum) : bool :=
  match compare a b with Some Gt => true | _ => false end.

(** [int(a)]: truncation toward zero; NaN and the infinities raise. *)
Definition to_int (a : pynum) : exn + Z :=
  match a with
  | PInt n => inr n
  | PFloat S754_nan => inl ValueError
  | PFloat (S754_infinity _) => inl OverflowError
  | PFloat (S754_zero _) => inr 0
  | PFloat (S754_finite s m e) =>
      inr (cond_Zopp s (if 0 <=? e then Zpos m * 2 ^ e
                        else Zpos m / 2 ^ (- e)))
  end.

(** The chained test [0 <= a < hi] with an int bound [hi]. *)
Definition in_range (a : pynum) (hi : Z) : bool :=
  leb (PInt 0) a && ltb a (PInt hi).

End PyNum.
Import PyNum.

(** ** Computations: random tape, log, exceptions *)

Inductive outcome (A : Type) : Type :=
| Val (a : A)
| Exc (e : exn)
| Starved.
Arguments Val {A} a.
Arguments Exc {A} e.
Arguments Starved {A}.

(** ** Data model *)

(** A particle: position and colour ('orange' is species A, 'blue' species B). *)
Record Particle : Type := mkParticle {
  x : pynum;
  y : pynum;
  color : string
}.

(** The three probe classes; only [SystemEntropy] carries state:
    [max_entropy] and [max_entropy_cycle]. *)
Inductive Probe : Type :=
| BaseProbe
| ConcentrationDensity
| SystemEntropy (max_entropy : pynum) (max_entropy_cycle : Z).

Record Chamber : Type := mkChamber {
  width : Z;
  height : Z;
  temperature : pynum;
  particles : list Particle;
  hooks : list Probe
}.

(** Calls on the display target (the scope screen).  A plotted series is kept
    as its numbers; the title as the values it formats. *)
Inductive draw : Type :=
| Clear
| Plot (xs ys : list Z) (colour label : string)
| SetXLabel (s : string)
| SetYLabel (s : string)
| Legend (loc : string)
| SetTitle (cycle : Z) (entropy max_entropy : pynum) (max_entropy_cycle : Z).

(** What the log records, in program order: the return of the [i]-th
    particle's [move], the call of a hook's [updated] together with the
    particle list the hook finds in the chamber, and the calls on the screen. *)
Inductive event : Type :=
| Moved (i : nat)
| Notified (h : Probe) (cycle : Z) (seen : list Particle)
| Screen (d : draw).

Record world : Type := mkWorld {
  tape : list nat;
  log : list event
}.

Definition M (A : Type) : Type := world -> outcome A * world.

Definition ret {A : Type} (a : A) : M A := fun w => (Val a, w).

Definition bind {A B : Type} (m : M A) (f : A -> M B) : M B :=
  fun w =>
    match m w with
    | (Val a, w') => f a w'
    | (Exc e, w') => (Exc e, w')
    | (Starved, w') => (Starved, w')
    end.

Definition raise {A : Type} (e : exn) : M A := fun w => (Exc e, w).

Definition lift {A : Type} (r : exn + A) : M A :=
  match r with
  | inl e => raise e
  | inr a => ret a
  end.

Definition emit (ev : event) : M unit :=
  fun w => (Val tt, mkWorld (tape w) (log w ++ [ev])).

Declare Scope py_scope.
Delimit Scope py_scope with py.
Notation "v <- m ;; k" := (bind m (fun v => k))
  (at level 100, m at next level, right associativity) : py_scope.
Notation "m ;;; k" := (bind m (fun _ => k))
  (at level 100, right associativity) : py_scope.
Local Open Scope py_scope.

(** A [for] loop over a list that rebuilds the list from the loop body's
    results (the body mutates the element in place). *)
Fixpoint for_each {A B : Type} (body : A -> M B) (l : list A) : M (list B) :=
  match l with
  | [] => ret []
  | a :: l' =>
      b <- body a ;;
      bs <- for_each body l' ;;
      ret (b :: bs)
  end.

(** ** The [random] module *)

(** The next raw draw of the generator. *)
Definition next_raw : M nat :=
  fun w =>
    match tape w with
    | [] => (Starved, w)
    | r :: t => (Val r, mkWorld t (log w))
    end.

(** [random.randint(a, b)]: an int in [a, b], both ends included. *)
Definition randint (a b : Z) : M Z :=
  if b - a + 1 <=? 0 then raise ValueError
  else r <- next_raw ;; ret (a + Z.of_nat r mod (b - a + 1)).

(** [random.choice(seq)] *)
Definition choice {A : Type} (seq : list A) : M A :=
  match seq with
  | [] => raise IndexError
  | d :: _ =>
      r <- next_raw ;; ret (nth (r mod List.length seq)%nat seq d)
  end.

(** ** Particle *)

(** [Particle.move(max_x, max_y, velocity)] *)
Definition move (p : Particle) (max_x max_y : Z) (velocity : pynum)
  : M Particle :=
  sx <- choice [-1; 0; 1] ;;
  dx <- lift (PyNum.mul (PInt sx) velocity) ;;
  new_x <- lift (PyNum.add (x p) dx) ;;
  sy <- choice [-1; 0; 1] ;;
  dy <- lift (PyNum.mul (PInt sy) velocity) ;;
  new_y <- lift (PyNum.add (y p) dy) ;;
  let p1 := if in_range new_x max_x
            then mkParticle new_x (y p) (color p) else p in
  let p2 := if in_range new_y max_y
            then mkParticle (x p1) new_y (color p1) else p1 in
  ret p2.

(** ** Chamber *)

(** [Chamber.is_position_occupied(x, y)] *)
Fixpoint is_position_occupied (ps : list Particle) (cx cy : Z) : bool :=
  match ps with
  | [] => false
  | p :: ps' =>
      if PyNum.eqb (x p) (PInt cx) && PyNum.eqb (y p) (PInt cy) then true
      else is_position_occupied ps' cx cy
  end.

(** The [while self.is_position_occupied(x, y)] loop of [init_particles]:
    redraw both coordinates until the cell is free.  Each turn consumes
    draws, so the length of the tape bounds the turns that can run. *)
Fixpoint resample (fuel : nat) (ps : list Particle) (w h : Z) (cx cy : Z)
  : M (Z * Z) :=
  if is_position_occupied ps cx cy then
    match fuel with
    | O => fun wd => (Starved, wd)
    | S fuel' =>
        cx' <- randint 0 (w - 1) ;;
        cy' <- randint 0 (h - 1) ;;
        resample fuel' ps w h cx' cy'
    end
  else ret (cx, cy).

(** One turn of the [for _ in range(num_particles)] loop. *)
Definition place_particle (ps : list Particle) (w h : Z) : M (list Particle) :=
  let mid_x := w / 2 in
  cx <- randint 0 (w - 1) ;;
  cy <- randint 0 (h - 1) ;;
  c <- (fun wd => resample (List.length (tape wd)) ps w h cx cy wd) ;;
  let (fx, fy) := (c : Z * Z) in
  ret (ps ++ [mkParticle (PInt fx) (PInt fy)
                (if fx <? mid_x then "orange" else "blue")]).

Fixpoint place_particles (n : nat) (ps : list Particle) (w h : Z)
  : M (list Particle) :=
  match n with
  | O => ret ps
  | S n' =>
      ps' <- place_particle ps w h ;;
      place_particles n' ps' w h
  end.

(** [Chamber.init_particles(num_particles)] on the particle list [ps]. *)
Definition init_particles (ps : list Particle) (w h : Z) (num_particles : Z)
  : M (list Particle) :=
  place_particles (Z.to_nat num_particles) ps w h.

(** [Chamber(size, temperature, num_particles)] *)
Definition Chamber_init (size : Z) (temp : pynum) (num_particles : Z)
  : M Chamber :=
  ps <- init_particles [] size size num_particles ;;
  ret (mkChamber size size temp ps []).

(** [Chamber.add_hook(hook)] *)
Definition add_hook (c : Chamber) (hook : Probe) : Chamber :=
  mkChamber (width c) (height c) (temperature c) (particles c)
            (hooks c ++ [hook]).

(** ** numpy arrays *)

(** Exceptions without the world: the pure part of a probe. *)
Definition ebind {A B : Type} (r : exn + A) (f : A -> exn + B) : exn + B :=
  match r with
  | inl e => inl e
  | inr a => f a
  end.
Notation "v <~ r ;; k" := (ebind r (fun v => k))
  (at level 100, r at next level, right associativity) : py_scope.

(** A [width x height] array of counts.  numpy holds them as float64; a count
    is an integer-valued float, kept here as that integer (counts stay far
    below 2^53, where float64 is exact on integers). *)
Definition grid : Type := list (list Z).

(** Why numpy can refuse to create an array of a given shape, whatever its
    contents: a dimension that does not fit the platform's index type
    (OverflowError), an array whose size in bytes does not
    (ValueError, array is too big), or memory that cannot be had
    (MemoryError). *)
Inductive refusal : Type :=
| DimensionOverflow
| ArrayTooBig
| OutOfMemory.

Definition refusal_exn (r : refusal) : exn :=
  match r with
  | DimensionOverflow => OverflowError
  | ArrayTooBig => ValueError
  | OutOfMemory => MemoryError
  end.

Section Numpy.

(** Whether numpy refuses, for their size, the float64 arrays of shape
    [(w, h)] that a probe creates, and why.  The answer depends on the
    platform and on the memory that is free: it belongs to numpy and the
    machine, not to this program, and is a parameter of the model. *)
Variable np_limit : Z -> Z -> option refusal.

(** [np.zeros((w, h))]: refused for its size, or refused for a negative
    dimension (ValueError), or an array of zeros. *)
Definition zeros (w h : Z) : exn + grid :=
  match np_limit w h with
  | Some r => inl (refusal_exn r)
  | None =>
      if (w <? 0) || (h <? 0) then inl ValueError
      else inr (repeat (repeat 0 (Z.to_nat h)) (Z.to_nat w))
  end.

(** An index [i] on an axis of length [n]: a negative index counts from the
    end, an index outside [-n, n) raises. *)
Definition norm_index (i n : Z) : exn + nat :=
  if (- n <=? i) && (i <? n)
  then inr (Z.to_nat (if i <? 0 then i + n else i))
  else inl IndexError.

Fixpoint update_nth {A : Type} (f : A -> A) (n : nat) (l : list A) : list A :=
  match l, n with
  | [], _ => []
  | a :: l', O => f a :: l'
  | a :: l', S n' => a :: update_nth f n' l'
  end.

(** [g[i, j] += 1] *)
Definition bump (g : grid) (i j : nat) : grid :=
  update_nth (update_nth (fun c => c + 1) j) i g.

(** [g[int(p.x), int(p.y)] += 1] on a [w x h] array. *)
Definition bump_at (g : grid) (w h : Z) (p : Particle) : exn + grid :=
  ix <~ to_int (x p) ;;
  iy <~ to_int (y p) ;;
  i <~ norm_index ix w ;;
  j <~ norm_index iy h ;;
  inr (bump g i j).

(** The loop over the particles that fills the two occupancy arrays. *)
Fixpoint fill_densities (ps : list Particle) (w h : Z) (orange blue : grid)
  : exn + (grid * grid) :=
  match ps with
  | [] => inr (orange, blue)
  | p :: ps' =>
      if String.eqb (color p) "orange" then
        orange' <~ bump_at orange w h p ;;
        fill_densities ps' w h orange' blue
      else if String.eqb (color p) "blue" then
        blue' <~ bump_at blue w h p ;;
        fill_densities ps' w h orange blue'
      else fill_densities ps' w h orange blue
  end.

(** [orange_density] and [blue_density], as both probes build them. *)
Definition densities (c : Chamber) : exn + (grid * grid) :=
  orange <~ zeros (width c) (height c) ;;
  blue <~ zeros (width c) (height c) ;;
  fill_densities (particles c) (width c) (height c) orange blue.

Definition Zsum (l : list Z) : Z := fold_right Z.add 0 l.

(** [np.sum(g, axis=1)]: one sum per x. *)
Definition sum_axis1 (g : grid) : list Z := map Zsum g.

(** [np.arange(n)] *)
Definition arange (n : Z) : list Z := map Z.of_nat (seq 0 (Z.to_nat n)).

(** Element-wise operations on arrays of the same shape. *)
Fixpoint zip_with {A B C : Type} (f : A -> B -> C) (l : list A) (l' : list B)
  : list C :=
  match l, l' with
  | a :: t, b :: t' => f a b :: zip_with f t t'
  | _, _ => []
  end.

Definition grid_zip {A B C : Type} (f : A -> B -> C)
           (g : list (list A)) (g' : list (list B)) : list (list C) :=
  zip_with (zip_with f) g g'.

Definition grid_map {A B : Type} (f : A -> B) (g : list (list A))
  : list (list B) := map (map f) g.

(** ** Probes *)

(** The series [ConcentrationDensity] plots. *)
Definition concentrations (c : Chamber) : exn + (list Z * list Z) :=
  d <~ densities c ;;
  inr (sum_axis1 (fst d), sum_axis1 (snd d)).

(** [ConcentrationDensity.updated(cycle)] *)
Definition ConcentrationDensity_updated (c : Chamber) (cycle : Z) : M unit :=
  s <- lift (concentrations c) ;;
  let x_values := arange (width c) in
  emit (Screen Clear) ;;;
  emit (Screen (Plot x_values (fst s) "orange" "Orange Concentration")) ;;;
  emit (Screen (Plot x_values (snd s) "blue" "Blue Concentration")) ;;;
  emit (Screen (SetXLabel "X")) ;;;
  emit (Screen (SetYLabel "Concentration")) ;;;
  emit (Screen (Legend "upper right")).

(** numpy's [log2] on a float64, and its reduction [np.sum] of a float64
    array (given flattened, row by row).  Both belong to numpy, not to this
    program: they are parameters of the model. *)
Variable log2 : spec_float -> spec_float.
Variable np_sum : list spec_float -> spec_float.

(** The float [1e-9]. *)
Definition eps : spec_float := literal 1 1000000000.

(** [total_particles]: the sum of both arrays, zeros replaced by ones. *)
Definition total_particles (orange blue : grid) : grid :=
  grid_map (fun t => if t =? 0 then 1 else t) (grid_zip Z.add orange blue).

(** [density / total_particles] *)
Definition prob (density total : grid) : list (list spec_float) :=
  grid_zip (fun n t => fdiv (Z2F n) (Z2F t)) density total.

(** One cell of [entropy]. *)
Definition cell_entropy (po pb : spec_float) : spec_float :=
  SFopp (fadd (fmul po (log2 (fadd po eps)))
              (fmul pb (log2 (fadd pb eps)))).

Definition entropy (orange blue : grid) : list (list spec_float) :=
  let total := total_particles orange blue in
  grid_zip cell_entropy (prob orange total) (prob blue total).

Definition total_entropy (c : Chamber) : exn + pynum :=
  d <~ densities c ;;
  inr (PFloat (np_sum (List.concat (entropy (fst d) (snd d))))).

(** The [if total_entropy > self.max_entropy] update of the two fields. *)
Definition track_max (total max_entropy : pynum) (max_entropy_cycle cycle : Z)
  : pynum * Z :=
  if PyNum.gtb total max_entropy then (total, cycle)
  else (max_entropy, max_entropy_cycle).

(** [SystemEntropy.updated(cycle)] on a probe with the given fields. *)
Definition SystemEntropy_updated (max_entropy : pynum) (max_entropy_cycle : Z)
           (c : Chamber) (cycle : Z) : M Probe :=
  total <- lift (total_entropy c) ;;
  let st := track_max total max_entropy max_entropy_cycle cycle in
  emit (Screen (SetTitle cycle total (fst st) (snd st))) ;;;
  ret (SystemEntropy (fst st) (snd st)).

(** [hook.updated(cycle)], by the class of the hook. *)
Definition updated (h : Probe) (c : Chamber) (cycle : Z) : M Probe :=
  match h with
  | BaseProbe => ret BaseProbe
  | ConcentrationDensity =>
      ConcentrationDensity_updated c cycle ;;; ret ConcentrationDensity
  | SystemEntropy mx cy => SystemEntropy_updated mx cy c cycle
  end.

(** The first loop of [Chamber.update]: every particle moves, in order
    ([i] is the index of the first particle of [ps]). *)
Fixpoint move_all (i : nat) (ps : list Particle) (w h : Z) (temp : pynum)
  : M (list Particle) :=
  match ps with
  | [] => ret []
  | p :: ps' =>
      velocity <- lift (truediv temp (PInt 100)) ;;
      p' <- move p w h velocity ;;
      emit (Moved i) ;;;
      rest <- move_all (S i) ps' w h temp ;;
      ret (p' :: rest)
  end.

(** The second loop: every hook is called, in the order of the list. *)
Definition notify_all (c : Chamber) (cycle : Z) : M (list Probe) :=
  for_each (fun h => emit (Notified h cycle (particles c)) ;;;
                     updated h c cycle)
           (hooks c).

(** [Chamber.update(cycle)] *)
Definition update (c : Chamber) (cycle : Z) : M Chamber :=
  ps <- move_all 0 (particles c) (width c) (height c) (temperature c) ;;
  let moved := mkChamber (width c) (height c) (temperature c) ps (hooks c) in
  hs <- notify_all moved cycle ;;
  ret (mkChamber (width c) (height c) (temperature c) ps hs).

End Numpy.

(** ** Diffusion *)

(** [int(0.8 * size * size)] *)
Definition fill_count (size : Z) : exn + Z :=
  a <~ PyNum.mul (PFloat (literal 8 10)) (PInt size) ;;
  b <~ PyNum.mul a (PInt size) ;;
  to_int b.

(** [SystemEntropy(chamber, scope_screen)]: the probe as its constructor
    leaves it, [max_entropy = 0] and [max_entropy_cycle = 0]. *)
Definition SystemEntropy_init : Probe := SystemEntropy (PInt 0) 0.

(** [Diffusion(size, temperature)]: the chamber it builds and the two probes
    it hooks up, each registering itself from its constructor (the display
    backend is outside the model). *)
Definition Diffusion_init (size : Z) (temp : pynum) : M Chamber :=
  n <- lift (fill_count size) ;;
  c <- Chamber_init size temp n ;;
  let c1 := add_hook c ConcentrationDensity in
  let c2 := add_hook c1 SystemEntropy_init in
  ret c2.

(** ** Vocabulary of the statements *)

(** The step a raw draw selects in [random.choice([-1, 0, 1])]. *)
Definition step_of (r : nat) : Z := nth (r mod 3)%nat [-1; 0; 1] (-1).

(** The proposed coordinate [c + step * velocity]. *)
Definition proposal (c : pynum) (step : Z) (velocity : pynum) : exn + pynum :=
  d <~ PyNum.mul (PInt step) velocity ;;
  PyNum.add c d.

(** [move] as a function of the two draws it makes. *)
Definition moved (p : Particle) (max_x max_y : Z) (new_x new_y : pynum)
  : Particle :=
  mkParticle (if in_range new_x max_x then new_x else x p)
             (if in_range new_y max_y then new_y else y p)
             (color p).


(** One particle before and after one [move] in a [w x h] chamber at the
    given velocity: some pair of steps proposes new coordinates, each taken
    only when it lies in range on its axis. *)
Definition one_move (w h : Z) (velocity : pynum) (p p' : Particle) : Prop :=
  exists sx sy new_x new_y,
    In sx [-1; 0; 1] /\ In sy [-1; 0; 1] /\
    proposal (x p) sx velocity = inr new_x /\
    proposal (y p) sy velocity = inr new_y /\
    p' = moved p w h new_x new_y.




(** A particle list after every particle made one move at the velocity
    [temp / 100] (an empty list never evaluates the division). *)
Definition all_moved (w h : Z) (temp : pynum) (ps ps' : list Particle) : Prop :=
  ps = [] /\ ps' = [] \/
  exists velocity,
    truediv temp (PInt 100) = inr velocity /\
    Forall2 (one_move w h velocity) ps ps'.

(** Stand-ins for what belongs to numpy and the machine, to run the model
    on examples. *)

(** A 64-bit platform on which an array of up to 2^27 cells (1 GiB of
    float64) can be had. *)
Definition np_limit_sample (w h : Z) : option refusal :=
  if (w <? - 2 ^ 63) || (2 ^ 63 <=? w) || (h <? - 2 ^ 63) || (2 ^ 63 <=? h)
  then Some DimensionOverflow
  else if (0 <=? w) && (0 <=? h) && (2 ^ 63 <=? 8 * w * h)
  then Some ArrayTooBig
  else if (0 <=? w) && (0 <=? h) && (2 ^ 27 <? w * h)
  then Some OutOfMemory
  else None.

(** [log2] on the three arguments the examples meet, [1e-9], [1.0 + 1e-9]
    and [0.5 + 1e-9]: the binary64 nearest to the logarithm of the argument
    (-29.897352853986263, 1.4426951595367387e-09 and -0.99999999711461).
    On any other argument the stand-in gives NaN. *)
Definition log2_sample (a : spec_float) : spec_float :=
  if SFeqb a eps then S754_finite true 8415356698286048 (-48)
  else if SFeqb a (fadd (Z2F 1) eps)
  then S754_finite false 6976445712788040 (-82)
  else if SFeqb a (fadd (literal 1 2) eps)
  then S754_finite true 9007199228751709 (-53)
  else S754_nan.

(** A sum from left to right, starting at 0.0 ([np.sum] adds in another
    order, and its result can differ in the last place). *)
Definition sum_sample (l : list spec_float) : spec_float :=
  fold_left fadd l (S754_zero false).

(** A small chamber to run the model on: 3 x 3, temperature 75, an orange
    particle at (0, 0) and a blue one at (2, 1), both probes hooked up. *)
Definition sample_chamber : Chamber :=
  add_hook
    (add_hook
       (mkChamber 3 3 (PInt 75)
          [mkParticle (PInt 0) (PInt 0) "orange";
           mkParticle (PInt 2) (PInt 1) "blue"] [])
       ConcentrationDensity)
    SystemEntropy_init.

Definition sample_world : world := mkWorld [2; 1; 0; 2]%nat [].

(** A chamber with a mixed cell: an orange and a blue particle both in the
    cell (1, 1) of a 3 x 3 chamber. *)
Definition mixed_chamber : Chamber :=
  mkChamber 3 3 (PInt 75)
    [mkParticle (PInt 1) (PInt 1) "orange";
     mkParticle (PInt 1) (PInt 1) "blue"] [SystemEntropy_init].

Definition sample_update : outcome Chamber * world :=
  update np_limit_sample log2_sample sum_sample sample_chamber 7 sample_world.

Definition sample_after : Chamber :=
  match fst sample_update with
  | Val c => c
  | _ => sample_chamber
  end.

(** The rational number a Python number stands for (none for NaN and the
    infinities). *)
Definition value (a : pynum) : option Q :=
  match a with
  | PInt n => Some (inject_Z n)
  | PFloat (S754_zero _) => Some (inject_Z 0)
  | PFloat (S754_finite s m e) =>
      Some (if 0 <=? e then inject_Z (cond_Zopp s (Zpos m) * 2 ^ e)
            else Qmake (cond_Zopp s (Zpos m)) (Z.to_pos (2 ^ (- e))))
  | PFloat _ => None
  end.

(** Truncation toward zero. *)
Definition Qtrunc (q : Q) : Z :=
  if Qle_bool (inject_Z 0) q then Qfloor q else Qceiling q.

(** [n] is an integer nearest to [a]: at distance at most one half. *)
Definition is_nearest_int (a : pynum) (n : Z) : Prop :=
  exists q, value a = Some q /\ (Qabs (q - inject_Z n) <= 1 # 2)%Q.

(** The cell [g[i, j]] of an array, when it exists. *)
Definition cell {A : Type} (g : list (list A)) (i j : nat) : option A :=
  match nth_error g i with
  | Some row => nth_error row j
  | None => None
  end.

(** The number of particles of a colour. *)
Definition count_color (col : string) (ps : list Particle) : Z :=
  Z.of_nat (List.length (filter (fun p => String.eqb (color p) col) ps)).

(** All particles inside [0, w) x [0, h). *)
Definition all_in_chamber (w h : Z) (ps : list Particle) : Prop :=
  Forall (fun p => in_range (x p) w = true /\ in_range (y p) h = true) ps.

(** An array of [W] rows of [H] cells each. *)
Definition shape (W H : nat) (g : grid) : Prop :=
  List.length g = W /\ Forall (fun row => List.length row = H) g.

(** The sum of all cells: the sum over x of the series [np.sum(g, axis=1)]. *)
Definition grid_total (g : grid) : Z := Zsum (sum_axis1 g).

(** The reading "the cell at the position rounded to the nearest integer
    on each axis": the increment for [p] hits a cell whose indices are
    integers nearest to the coordinates of [p]. *)
Definition increments_nearest_cell (g : grid) (w h : Z) (p : Particle) : Prop :=
  exists i j,
    is_nearest_int (x p) i /\ is_nearest_int (y p) j /\
    bump_at g w h p = inr (bump g (Z.to_nat i) (Z.to_nat j)).

(** The cell [int] selects: indices at the coordinates truncated toward
    zero, normalised the way numpy does. *)
Definition bump_truncated (g : grid) (w h : Z) (qx qy : Q) : exn + grid :=
  i <~ norm_index (Qtrunc qx) w ;;
  j <~ norm_index (Qtrunc qy) h ;;
  inr (bump g i j).

(** An orange particle at (0.75, 0), and an empty 3 x 3 array. *)
Definition particle_075 : Particle :=
  mkParticle (PFloat (literal 3 4)) (PInt 0) "orange".

Definition zeros_3x3 : grid := repeat (repeat 0 3%nat) 3%nat.

(** Every cell of an array holds a non-negative count. *)
Definition nonneg_grid (g : grid) : Prop :=
  Forall (Forall (fun n => 0 <= n)) g.

(** The position of a particle. *)
Definition position (p : Particle) : pynum * pynum := (x p, y p).

(** A particle as [init_particles] creates it in a [w x h] chamber: integer
    coordinates inside the chamber, orange left of the midline [w // 2] and
    blue otherwise. *)
Definition seeded (w h : Z) (p : Particle) : Prop :=
  exists cx cy,
    x p = PInt cx /\ y p = PInt cy /\
    0 <= cx < w /\ 0 <= cy < h /\
    color p = if cx <? w / 2 then "orange"%string else "blue"%string.


(** A tape that proposes cells of an [s]-wide chamber one after the other,
    row by row: the [n] cells from the [k]-th on. *)
Definition sweep_tape_from (s k n : nat) : list nat :=
  flat_map (fun j => [(j mod s)%nat; (j / s)%nat]) (seq k n).

Definition sweep_tape (size : Z) (n : nat) : list nat :=
  sweep_tape_from (Z.to_nat size) 0 n.

(** A chamber with another temperature. *)
Definition with_temperature (temp : pynum) (c : Chamber) : Chamber :=
  mkChamber (width c) (height c) temp (particles c) (hooks c).

(** [fill_count] agrees with the exact floor of 4/5 of the square on the
    [n] sizes from [size] on. *)
Fixpoint fill_count_exact_on (n : nat) (size : Z) : bool :=
  match n with
  | O => true
  | S n' =>
      match fill_count size with
      | inr k => k =? 4 * size * size / 5
      | inl _ => false
      end && fill_count_exact_on n' (size + 1)
  end.

(** ** Further vocabulary: the driver, values and counts *)

(** [Diffusion.update(frame)]: one update of the chamber; the offsets handed
    to the scatter plot are the positions of the particles, in order. *)
Definition Diffusion_update np_limit log2 np_sum (c : Chamber) (frame : Z)
  : M (Chamber * list (pynum * pynum)) :=
  c' <- update np_limit log2 np_sum c frame ;;
  ret (c', map position (particles c')).

(** The animation started by [Diffusion.start]: [Diffusion.update] is called
    once for each frame the animation backend passes, in order. *)
Fixpoint animate np_limit log2 np_sum (c : Chamber) (frames : list Z)
  : M Chamber :=
  match frames with
  | [] => ret c
  | frame :: frames' =>
      r <- Diffusion_update np_limit log2 np_sum c frame ;;
      animate np_limit log2 np_sum (fst r) frames'
  end.

(** Two numbers with the same value (an int and the float it converts to,
    the two zeros). *)
Definition same_value (a b : pynum) : Prop :=
  exists qa qb, value a = Some qa /\ value b = Some qb /\ (qa == qb)%Q.

(** A particle at the same place, with the same colour. *)
Definition stays_put (p p' : Particle) : Prop :=
  same_value (x p) (x p') /\ same_value (y p) (y p') /\ color p' = color p.

(** A velocity of zero: the int 0 or one of the float zeros. *)
Definition zero_velocity (v : pynum) : Prop :=
  v = PInt 0 \/ exists s, v = PFloat (S754_zero s).

(** The particles both probes count: the orange and the blue ones. *)
Definition counted (p : Particle) : bool :=
  String.eqb (color p) "orange" || String.eqb (color p) "blue".

(** [int(a)] is the index [i]. *)
Definition int_is (a : pynum) (i : Z) : bool :=
  match to_int a with
  | inr k => k =? i
  | inl _ => false
  end.

(** The number of particles of a colour whose [int(x)] is [i]. *)
Definition column_count (col : string) (i : Z) (ps : list Particle) : Z :=
  Z.of_nat (List.length
              (filter (fun p => String.eqb (color p) col && int_is (x p) i) ps)).

(** The number of particles of a colour in the cell [(i, j)]. *)
Definition cell_count (col : string) (i j : Z) (ps : list Particle) : Z :=
  Z.of_nat (List.length
              (filter (fun p => String.eqb (color p) col &&
                                int_is (x p) i && int_is (y p) j) ps)).

(** What numpy accepts as the index of a particle in a [w x h] array. *)
Definition indexable (w h : Z) (p : Particle) : Prop :=
  exists i j, to_int (x p) = inr i /\ to_int (y p) = inr j /\
              - w <= i < w /\ - h <= j < h.

(** Two hooks of the same probe class. *)
Definition same_class (h h' : Probe) : Prop :=
  match h, h' with
  | BaseProbe, BaseProbe => True
  | ConcentrationDensity, ConcentrationDensity => True
  | SystemEntropy _ _, SystemEntropy _ _ => True
  | _, _ => False
  end.

(** Two particles at the same place, as the code compares positions: both
    coordinates equal by Python's [==], for which the int 1 and the float
    1.0 are equal. *)
Definition same_place (p q : Particle) : bool :=
  PyNum.eqb (x p) (x q) && PyNum.eqb (y p) (y q).

(** The draws of a list of proposals, as the tape holds them. *)
Definition draws_of (proposals : list (nat * nat)) : list nat :=
  flat_map (fun rr => [fst rr; snd rr]) proposals.

(** The cell a pair of raw draws proposes in a [w x h] chamber. *)
Definition proposed (w h : Z) (rr : nat * nat) : Z * Z :=
  (Z.of_nat (fst rr) mod w, Z.of_nat (snd rr) mod h).

(** The array index of a particle in a [w x h] array: [int] of both
    coordinates, then numpy's normalisation of each index. *)
Definition particle_index (w h : Z) (p : Particle) : exn + (nat * nat) :=
  ix <~ to_int (x p) ;;
  iy <~ to_int (y p) ;;
  i <~ norm_index ix w ;;
  j <~ norm_index iy h ;;
  inr (i, j).

(** A chamber with other particles. *)
Definition with_particles (ps : list Particle) (c : Chamber) : Chamber :=
  mkChamber (width c) (height c) (temperature c) ps (hooks c).
(** * Properties *)

(** ** Reasoning about computations *)

Lemma bind_val {A B : Type} (m : M A) (f : A -> M B) (w w' : world) (b : B) :
  bind m f w = (Val b, w') ->
  exists a w1, m w = (Val a, w1) /\ f a w1 = (Val b, w').
Proof.
  unfold bind. destruct (m w) as [[a | e |] w1]; intro H; try discriminate.
  exists a, w1. split; [reflexivity | exact H].
Qed.

Lemma lift_val {A : Type} (r : exn + A) (w w' : world) (a : A) :
  lift r w = (Val a, w') -> r = inr a /\ w' = w.
Proof.
  destruct r as [e | a0]; cbn; intro H; inversion H; subst; auto.
Qed.

Lemma ret_val {A : Type} (a b : A) (w w' : world) :
  ret a w = (Val b, w') -> a = b /\ w' = w.
Proof. unfold ret. intro H. inversion H. auto. Qed.

Lemma ebind_inr {A B : Type} (r : exn + A) (f : A -> exn + B) (b : B) :
  ebind r f = inr b -> exists a, r = inr a /\ f a = inr b.
Proof.
  destruct r as [e | a]; cbn; intro H; [discriminate | eauto].
Qed.

(** Splits a successful run of a sequence of binds into its steps. *)
Ltac run_val H :=
  repeat match type of H with
    | bind _ _ _ = (Val _, _) =>
        let a := fresh "a" in
        let w1 := fresh "w" in
        let H1 := fresh "Hrun" in
        apply bind_val in H; destruct H as (a & w1 & H1 & H)
    end.

(** ** Particle.move *)

Lemma step_of_range (r : nat) : In (step_of r) [-1; 0; 1].
Proof.
  unfold step_of. apply nth_In. cbn [List.length].
  apply Nat.mod_upper_bound. discriminate.
Qed.

Lemma choice_steps (r : nat) (t : list nat) (lg : list event) :
  choice [-1; 0; 1] (mkWorld (r :: t) lg) = (Val (step_of r), mkWorld t lg).
Proof. reflexivity. Qed.

Lemma move_two_draws (p : Particle) (max_x max_y : Z) (velocity : pynum)
      (r1 r2 : nat) (t : list nat) (lg : list event) :
  move p max_x max_y velocity (mkWorld (r1 :: r2 :: t) lg) =
  match proposal (x p) (step_of r1) velocity with
  | inl e => (Exc e, mkWorld (r2 :: t) lg)
  | inr new_x =>
      match proposal (y p) (step_of r2) velocity with
      | inl e => (Exc e, mkWorld t lg)
      | inr new_y => (Val (moved p max_x max_y new_x new_y), mkWorld t lg)
      end
  end.
Proof.
  unfold move, proposal. unfold bind at 1. rewrite choice_steps.
  unfold bind at 1.
  destruct (PyNum.mul (PInt (step_of r1)) velocity) as [e | dx]; cbn [lift ebind];
    [reflexivity |].
  unfold raise, ret. unfold bind at 1.
  destruct (PyNum.add (x p) dx) as [e | new_x]; cbn [lift];
    [reflexivity |].
  unfold ret. unfold bind at 1. rewrite choice_steps. unfold bind at 1.
  destruct (PyNum.mul (PInt (step_of r2)) velocity) as [e | dy]; cbn [lift ebind];
    [reflexivity |].
  unfold ret. unfold bind at 1.
  destruct (PyNum.add (y p) dy) as [e | new_y]; cbn [lift];
    [reflexivity |].
  unfold ret, moved.
  destruct (in_range new_x max_x), (in_range new_y max_y); destruct p; reflexivity.
Qed.

Lemma float_of_int_exn (n : Z) (e : exn) :
  float_of_int n = inl e -> e = OverflowError.
Proof.
  unfold float_of_int. destruct (Z2F n); intro H; inversion H; reflexivity.
Qed.

Lemma float_binop_exn op (a b : pynum) (e : exn) :
  float_binop op a b = inl e -> e = OverflowError.
Proof.
  unfold float_binop, to_float.
  destruct a as [m | f], b as [n | g];
    repeat match goal with
      | |- context [float_of_int ?k] =>
          let E := fresh "E" in
          destruct (float_of_int k) eqn:E;
          [apply float_of_int_exn in E; subst |]
      end; intro H; inversion H; reflexivity.
Qed.

(** The arithmetic of [move] raises nothing but [OverflowError] (an int too
    large for a float). *)
Lemma proposal_exn (c : pynum) (step : Z) (velocity : pynum) (e : exn) :
  proposal c step velocity = inl e -> e = OverflowError.
Proof.
  unfold proposal, ebind.
  destruct (PyNum.mul (PInt step) velocity) as [e1 | d] eqn:Hm.
  - intro H; inversion H; subst.
    destruct velocity; cbn in Hm; [discriminate |].
    now apply float_binop_exn in Hm.
  - destruct c as [m | f], d as [n | g]; cbn [PyNum.add];
      try discriminate; apply float_binop_exn.
Qed.

(** C2: Particle.move keeps a particle inside the chamber: starting from
    coordinates in [0, max) on both axes, for every velocity and every pair
    of step draws, [move] returns (or, for an int too large to become a
    float, raises OverflowError before it changes anything), and then each
    coordinate is still in [0, max) on its axis; a coordinate that differs
    from its previous value has a proposal [coordinate + step * velocity]
    inside [0, max), and an out-of-range proposal leaves the coordinate of
    that axis unchanged.  The colour is untouched. *)
Theorem move_stays_in_chamber
        (p : Particle) (max_x max_y : Z) (velocity : pynum)
        (r1 r2 : nat) (t : list nat) (lg : list event) :
  in_range (x p) max_x = true ->
  in_range (y p) max_y = true ->
  match move p max_x max_y velocity (mkWorld (r1 :: r2 :: t) lg) with
  | (Val p', w') =>
      w' = mkWorld t lg /\
      in_range (x p') max_x = true /\
      in_range (y p') max_y = true /\
      color p' = color p /\
      exists new_x new_y,
        proposal (x p) (step_of r1) velocity = inr new_x /\
        proposal (y p) (step_of r2) velocity = inr new_y /\
        (x p' <> x p -> x p' = new_x /\ in_range new_x max_x = true) /\
        (y p' <> y p -> y p' = new_y /\ in_range new_y max_y = true) /\
        (in_range new_x max_x = false -> x p' = x p) /\
        (in_range new_y max_y = false -> y p' = y p)
  | (Exc e, _) => e = OverflowError
  | (Starved, _) => False
  end.
Proof.
  intros Hx Hy. rewrite move_two_draws.
  destruct (proposal (x p) (step_of r1) velocity) as [e | new_x] eqn:Px.
  { now apply proposal_exn in Px. }
  destruct (proposal (y p) (step_of r2) velocity) as [e | new_y] eqn:Py.
  { now apply proposal_exn in Py. }
  unfold moved; cbn [x y color].
  split; [reflexivity |].
  destruct (in_range new_x max_x) eqn:Rx, (in_range new_y max_y) eqn:Ry;
    (repeat split; try assumption; try reflexivity);
    exists new_x, new_y;
    (repeat split; try assumption; try reflexivity; try congruence);
    intro H; try discriminate; try (exfalso; apply H; reflexivity).
Qed.

(** Every step of {-1, 0, +1} is the step of some raw draw, and a raw draw
    selects no other step. *)
Lemma step_of_onto (s : Z) : In s [-1; 0; 1] <-> exists r, step_of r = s.
Proof.
  split.
  - intros [H | [H | [H | []]]]; subst;
      [exists 0%nat | exists 1%nat | exists 2%nat]; reflexivity.
  - intros [r <-]. apply step_of_range.
Qed.

Lemma sample_move_returns :
  move (mkParticle (PInt 0) (PInt 2) "orange") 3 3 (PFloat (literal 3 4))
       (mkWorld [0; 0]%nat []) =
  (Val (mkParticle (PInt 0) (PFloat (S754_finite false 5629499534213120 (-52)))
                   "orange"),
   mkWorld [] []).
Proof. vm_compute. reflexivity. Qed.

(** A particle at (0, 2) in a 3 x 3 chamber, velocity 0.75, both draws
    selecting the step -1: x stays (the proposal -0.75 is out of range),
    y becomes 1.25. *)
Lemma move_stays_in_chamber_witness :
  let p := mkParticle (PInt 0) (PInt 2) "orange" in
  in_range (x p) 3 = true /\ in_range (y p) 3 = true /\
  exists p',
    move p 3 3 (PFloat (literal 3 4)) (mkWorld [0; 0]%nat []) =
    (Val p', mkWorld [] []) /\
    in_range (x p') 3 = true /\ in_range (y p') 3 = true /\
    color p' = "orange"%string.
Proof.
  intro p.
  pose proof (move_stays_in_chamber p 3 3 (PFloat (literal 3 4))
                0%nat 0%nat [] [] eq_refl eq_refl) as H.
  split; [reflexivity | split; [reflexivity |]].
  unfold p in *. rewrite sample_move_returns in *.
  destruct H as (_ & Hx & Hy & Hc & _).
  eexists. split; [reflexivity |]. repeat split; assumption.
Defined.

(** ** Chamber.update: what it changes and in which order *)


(** A successful [move] is a [one_move] step. *)
Lemma move_val (p p' : Particle) (max_x max_y : Z) (velocity : pynum)
      (w w' : world) :
  move p max_x max_y velocity w = (Val p', w') ->
  one_move max_x max_y velocity p p'.
Proof.
  destruct w as [[| r1 [| r2 t]] lg].
  - discriminate.
  - unfold move. unfold bind at 1. rewrite choice_steps. unfold bind at 1.
    destruct (PyNum.mul (PInt (step_of r1)) velocity) as [e | dx];
      [discriminate |].
    cbn [lift]. unfold ret at 1. unfold bind at 1.
    destruct (PyNum.add (x p) dx) as [e | new_x]; discriminate.
  - rewrite move_two_draws.
    destruct (proposal (x p) (step_of r1) velocity) as [e | new_x] eqn:Px;
      [discriminate |].
    destruct (proposal (y p) (step_of r2) velocity) as [e | new_y] eqn:Py;
      [discriminate |].
    intro H. inversion H; subst.
    exists (step_of r1), (step_of r2), new_x, new_y.
    repeat split; auto using step_of_range.
Qed.

Lemma one_move_color (w h : Z) (v : pynum) (p p' : Particle) :
  one_move w h v p p' -> color p' = color p.
Proof.
  intros (sx & sy & nx & ny & _ & _ & _ & _ & ->). reflexivity.
Qed.

(** The first loop: on success every particle has made one move at the
    velocity [temperature / 100], in place (same length, same order). *)
Lemma move_all_val (ps ps' : list Particle) (i : nat) (w h : Z) (temp : pynum)
      (wd wd' : world) :
  move_all i ps w h temp wd = (Val ps', wd') ->
  ps = [] /\ ps' = [] \/
  exists velocity,
    truediv temp (PInt 100) = inr velocity /\
    Forall2 (one_move w h velocity) ps ps'.
Proof.
  revert ps' i wd wd'.
  induction ps as [| p ps IH]; intros ps' i wd wd' H.
  - left. cbn in H. apply ret_val in H. destruct H as [<- _]. auto.
  - right. cbn [move_all] in H. run_val H.
    apply lift_val in Hrun. destruct Hrun as [Hv ->].
    apply move_val in Hrun0.
    apply ret_val in H. destruct H as [<- _].
    exists a. split; [assumption |].
    constructor; [assumption |].
    apply IH in Hrun2. destruct Hrun2 as [[-> ->] | (v & Hv' & HF)].
    + constructor.
    + rewrite Hv in Hv'. inversion Hv'; subst. assumption.
Qed.






Lemma all_moved_shape (w h : Z) (temp : pynum) (ps ps' : list Particle) :
  all_moved w h temp ps ps' ->
  List.length ps' = List.length ps /\ map color ps' = map color ps.
Proof.
  intros [[-> ->] | (v & _ & HF)]; [auto |].
  induction HF as [| p p' l l' Hp _ [IH1 IH2]]; [auto |].
  cbn. rewrite IH1, IH2, (one_move_color _ _ _ _ _ Hp). auto.
Qed.

(** C7: Chamber.update changes only particle positions: the returned
    chamber has the same width, height and temperature; its particle list
    is the old one with every particle moved once in place, so it has the
    same length and order and every particle keeps its colour. *)
Theorem update_changes_only_positions np_limit log2 np_sum
        (c c' : Chamber) (cycle : Z) (w w' : world) :
  update np_limit log2 np_sum c cycle w = (Val c', w') ->
  width c' = width c /\
  height c' = height c /\
  temperature c' = temperature c /\
  List.length (particles c') = List.length (particles c) /\
  map color (particles c') = map color (particles c) /\
  all_moved (width c) (height c) (temperature c) (particles c) (particles c').
Proof.
  unfold update. intro H. run_val H.
  apply ret_val in H. destruct H as [<- _]. cbn [width height temperature particles].
  apply move_all_val in Hrun. fold (all_moved (width c) (height c) (temperature c)
                                      (particles c) a) in Hrun.
  destruct (all_moved_shape _ _ _ _ _ Hrun) as [Hlen Hcol].
  repeat split; assumption.
Qed.


(** Registration appends: the order of [hooks] is the order of the
    [add_hook] calls. *)
Lemma add_hook_appends (c : Chamber) (h : Probe) :
  hooks (add_hook c h) = hooks c ++ [h] /\
  particles (add_hook c h) = particles c /\
  width (add_hook c h) = width c /\
  height (add_hook c h) = height c /\
  temperature (add_hook c h) = temperature c.
Proof. repeat split. Qed.

Lemma sample_update_returns :
  update np_limit_sample log2_sample sum_sample sample_chamber 7 sample_world =
  (Val sample_after, snd sample_update).
Proof. vm_compute. reflexivity. Qed.

(** The sample chamber after one update: same shape, colours in place. *)
Lemma update_changes_only_positions_witness :
  update np_limit_sample log2_sample sum_sample sample_chamber 7 sample_world =
    (Val sample_after, snd sample_update) /\
  width sample_after = 3 /\
  height sample_after = 3 /\
  temperature sample_after = PInt 75 /\
  List.length (particles sample_after) = 2%nat /\
  map color (particles sample_after) = ["orange"; "blue"]%string.
Proof.
  split; [exact sample_update_returns |].
  destruct (update_changes_only_positions np_limit_sample log2_sample sum_sample
              sample_chamber sample_after 7 sample_world (snd sample_update)
              sample_update_returns)
    as (Hw & Hh & Ht & Hl & Hc & _).
  repeat split; assumption.
Defined.


(** ** SystemEntropy: the running maximum *)

Lemma track_max_spec (total mx : pynum) (cy cycle : Z) :
  (PyNum.gtb total mx = true /\ track_max total mx cy cycle = (total, cycle)) \/
  (PyNum.gtb total mx = false /\ track_max total mx cy cycle = (mx, cy)).
Proof.
  unfold track_max. destruct (PyNum.gtb total mx); auto.
Qed.

(** One call of [SystemEntropy.updated], whatever its outcome. *)
Lemma SystemEntropy_updated_cases np_limit log2 np_sum
      (mx : pynum) (cy : Z) (c : Chamber) (cycle : Z) (w : world) :
  match SystemEntropy_updated np_limit log2 np_sum mx cy c cycle w with
  | (Val h', _) =>
      exists total mx' cy',
        total_entropy np_limit log2 np_sum c = inr total /\
        h' = SystemEntropy mx' cy' /\
        (mx' = mx \/ PyNum.gtb mx' mx = true) /\
        (PyNum.gtb total mx = true -> mx' = total /\ cy' = cycle) /\
        (PyNum.gtb total mx = false -> mx' = mx /\ cy' = cy) /\
        (cy' <> cy -> PyNum.gtb total mx = true /\ mx' = total /\ cy' = cycle)
  | (Exc e, w') => total_entropy np_limit log2 np_sum c = inl e /\ w' = w
  | (Starved, _) => False
  end.
Proof.
  unfold SystemEntropy_updated. unfold bind at 1.
  destruct (total_entropy np_limit log2 np_sum c) as [e | total];
    cbn [lift raise ret].
  { auto. }
  cbn [bind emit].
  exists total, (fst (track_max total mx cy cycle)),
    (snd (track_max total mx cy cycle)).
  destruct (track_max_spec total mx cy cycle) as [[Hg ->] | [Hg ->]];
    cbn [fst snd]; rewrite Hg.
  - repeat split; auto; try discriminate.
  - repeat split; auto; try discriminate; try congruence.
Qed.

(** C5: SystemEntropy's running maximum.  The constructor leaves
    [max_entropy = 0] and [max_entropy_cycle = 0].  A call of [updated]
    either raises while the occupancy arrays are built, leaving the two
    fields as they were, or returns with the new maximum equal to the old
    one or strictly greater than it; [max_entropy_cycle] (and
    [max_entropy]) change only when the total entropy of the call strictly
    exceeds the stored maximum, and then they become that total and that
    cycle. *)
Theorem max_entropy_never_decreases np_limit log2 np_sum
        (mx : pynum) (cy : Z) (c : Chamber) (cycle : Z) (w : world) :
  SystemEntropy_init = SystemEntropy (PInt 0) 0 /\
  match SystemEntropy_updated np_limit log2 np_sum mx cy c cycle w with
  | (Val h', _) =>
      exists total mx' cy',
        total_entropy np_limit log2 np_sum c = inr total /\
        h' = SystemEntropy mx' cy' /\
        (mx' = mx \/ PyNum.gtb mx' mx = true) /\
        (PyNum.gtb total mx = true -> mx' = total /\ cy' = cycle) /\
        (PyNum.gtb total mx = false -> mx' = mx /\ cy' = cy) /\
        (cy' <> cy -> PyNum.gtb total mx = true /\ mx' = total /\ cy' = cycle)
  | (Exc e, w') => total_entropy np_limit log2 np_sum c = inl e /\ w' = w
  | (Starved, _) => False
  end.
Proof.
  split; [reflexivity |]. apply SystemEntropy_updated_cases.
Qed.

(** A returning [for] loop relates the list to its results pointwise. *)
Lemma for_each_Forall2 {A B : Type} (body : A -> M B) (R : A -> B -> Prop) :
  (forall a b w w', body a w = (Val b, w') -> R a b) ->
  forall l l' w w', for_each body l w = (Val l', w') -> Forall2 R l l'.
Proof.
  intros HR l. induction l as [| a l IH]; intros l' w w' H.
  - cbn in H. inversion H. constructor.
  - cbn [for_each] in H. run_val H. unfold ret in H. inversion H; subst.
    constructor; eauto.
Qed.

Lemma Forall2_lookup {A B : Type} (R : A -> B -> Prop)
      (l : list A) (l' : list B) (i : nat) (a : A) :
  Forall2 R l l' -> nth_error l i = Some a ->
  exists b, nth_error l' i = Some b /\ R a b.
Proof.
  intro H. revert i. induction H as [| h h' t t' Hh _ IH]; intros [| i] Hi;
    cbn in Hi; try discriminate.
  - inversion Hi; subst. exists h'. auto.
  - now apply IH.
Qed.

(** One [Chamber.update] later, a [SystemEntropy] hook is still there, in
    the same place, with a maximum equal to the old one or strictly
    greater; its cycle changed only if the maximum was raised in this
    cycle. *)
Lemma update_tracks_max np_limit log2 np_sum (c c' : Chamber) (cycle : Z)
      (w w' : world) (i : nat) (mx : pynum) (cy : Z) :
  update np_limit log2 np_sum c cycle w = (Val c', w') ->
  nth_error (hooks c) i = Some (SystemEntropy mx cy) ->
  exists mx' cy',
    nth_error (hooks c') i = Some (SystemEntropy mx' cy') /\
    (mx' = mx \/ PyNum.gtb mx' mx = true) /\
    (cy' <> cy -> cy' = cycle /\ PyNum.gtb mx' mx = true).
Proof.
  unfold update. intros H Hi. run_val H.
  apply ret_val in H. destruct H as [<- _]. cbn [hooks].
  unfold notify_all in Hrun0. cbn [hooks particles] in Hrun0.
  apply (for_each_Forall2 _
           (fun h h' => forall mx cy, h = SystemEntropy mx cy ->
              exists mx' cy', h' = SystemEntropy mx' cy' /\
                (mx' = mx \/ PyNum.gtb mx' mx = true) /\
                (cy' <> cy -> cy' = cycle /\ PyNum.gtb mx' mx = true)))
    in Hrun0.
  - destruct (Forall2_lookup _ _ _ _ _ Hrun0 Hi) as (h' & Hn & Hr).
    destruct (Hr _ _ eq_refl) as (mx' & cy' & -> & Hm).
    exists mx', cy'. auto.
  - intros h h' wa wb Hu mx0 cy0 ->.
    apply bind_val in Hu. destruct Hu as (u & wc & _ & Hu).
    cbn [updated] in Hu.
    match type of Hu with
    | SystemEntropy_updated _ _ _ _ _ ?mc _ _ = _ =>
        pose proof (SystemEntropy_updated_cases np_limit log2 np_sum mx0 cy0
                      mc cycle wc) as Hc
    end.
    rewrite Hu in Hc.
    destruct Hc as (total & mx' & cy' & _ & -> & Hmono & _ & _ & Hcy).
    exists mx', cy'. split; [reflexivity |]. split; [assumption |].
    intro Hne. destruct (Hcy Hne) as (Hg & -> & ->). auto.
Qed.

(** ** int() of a position *)

(** [int] of a finite number is its value truncated toward zero. *)
Lemma to_int_trunc (a : pynum) (q : Q) :
  value a = Some q -> to_int a = inr (Qtrunc q).
Proof.
  destruct a as [n | [s | s | | s m e]]; cbn [value to_int]; intro H;
    inversion H; subst; clear H.
  - unfold Qtrunc. rewrite Qceiling_Z, Qfloor_Z.
    now destruct (Qle_bool _ _).
  - reflexivity.
  - f_equal. destruct (0 <=? e) eqn:He.
    + unfold Qtrunc. rewrite Qceiling_Z, Qfloor_Z.
      destruct (Qle_bool _ _); destruct s; cbn [cond_Zopp]; lia.
    + apply Z.leb_gt in He.
      assert (0 < 2 ^ (- e)) as Hp by (apply Z.pow_pos_nonneg; lia).
      unfold Qtrunc, Qle_bool, Qceiling, Qfloor, Qopp.
      cbn [Qnum Qden inject_Z]. rewrite Z2Pos.id by assumption.
      destruct s; cbn [cond_Zopp].
      * replace (0 * Z.pos (Z.to_pos (2 ^ (- e))) <=? Z.neg m * 1) with false
          by (symmetry; apply Z.leb_gt; lia).
        rewrite Z.opp_involutive. change (- Z.neg m) with (Z.pos m).
        reflexivity.
      * replace (0 * Z.pos (Z.to_pos (2 ^ (- e))) <=? Z.pos m * 1) with true
          by (symmetry; apply Z.leb_le; lia).
        reflexivity.
Qed.

(** A position that passes the test [0 <= a < hi] has a value, and [int]
    of it is an index in [0, hi): the floor of the value. *)
Lemma in_range_to_int (a : pynum) (hi : Z) :
  in_range a hi = true ->
  exists q, value a = Some q /\
            to_int a = inr (Qfloor q) /\ 0 <= Qfloor q < hi.
Proof.
  unfold in_range. intro H. apply andb_prop in H. destruct H as [Hlo Hhi].
  unfold PyNum.leb in Hlo. unfold PyNum.ltb in Hhi.
  destruct a as [n | [s | s | | s m e]]; cbn [PyNum.compare] in *.
  - exists (inject_Z n). rewrite Qfloor_Z. cbn [value to_int].
    destruct (Z.compare_spec 0 n); try discriminate;
      destruct (Z.compare_spec n hi); try discriminate;
      repeat split; auto; lia.
  - exists (inject_Z 0). rewrite Qfloor_Z.
    cbn [value to_int compare_int_float option_map] in *.
    destruct (Z.compare_spec hi 0); try discriminate.
    repeat split; auto; lia.
  - cbn [compare_int_float option_map] in *. destruct s; discriminate.
  - discriminate.
  - cbn [compare_int_float option_map] in *. cbn [value to_int].
    eexists. split; [reflexivity |].
    destruct (0 <=? e) eqn:He.
    + apply Z.leb_le in He.
      assert (0 < 2 ^ e) as Hp by (apply Z.pow_pos_nonneg; lia).
      rewrite Qfloor_Z.
      destruct s; unfold cond_Zopp in *.
      * exfalso.
        assert (- Z.pos m * 2 ^ e < 0) as Hneg
            by (apply Z.mul_neg_pos; [reflexivity | assumption]).
        destruct (Z.compare_spec 0 (- Z.pos m * 2 ^ e));
          try discriminate; lia.
      * pose proof (Z.mul_pos_pos _ _ (Pos2Z.is_pos m) Hp).
        destruct (Z.compare_spec hi (Z.pos m * 2 ^ e)); try discriminate.
        repeat split; auto; lia.
    + apply Z.leb_gt in He.
      assert (0 < 2 ^ (- e)) as Hp by (apply Z.pow_pos_nonneg; lia).
      unfold Qfloor. rewrite Z2Pos.id by assumption.
      destruct s; unfold cond_Zopp in *.
      * exfalso. destruct (Z.compare_spec (0 * 2 ^ (- e)) (- Z.pos m));
          try discriminate; lia.
      * destruct (Z.compare_spec (hi * 2 ^ (- e)) (Z.pos m)); try discriminate.
        split; [reflexivity |]. split.
        -- apply Z.div_pos; lia.
        -- apply Z.div_lt_upper_bound; lia.
Qed.

(** ** Occupancy arrays *)

Lemma Zsum_cons (a : Z) (l : list Z) : Zsum (a :: l) = a + Zsum l.
Proof. reflexivity. Qed.

Lemma update_nth_length {A : Type} (f : A -> A) (n : nat) (l : list A) :
  List.length (update_nth f n l) = List.length l.
Proof.
  revert n. induction l as [| a l IH]; intros [| n]; cbn; auto.
Qed.

Lemma update_nth_Forall {A : Type} (P : A -> Prop) (f : A -> A) (n : nat)
      (l : list A) :
  (forall a, P a -> P (f a)) -> Forall P l -> Forall P (update_nth f n l).
Proof.
  intros Hf H. revert n. induction H as [| a l Ha Hl IH]; intros [| n]; cbn;
    constructor; auto.
Qed.

Lemma Zsum_incr (n : nat) (l : list Z) :
  (n < List.length l)%nat ->
  Zsum (update_nth (fun c => c + 1) n l) = Zsum l + 1.
Proof.
  revert n. induction l as [| a l IH]; intros [| n] H; cbn in *; try lia.
  assert (n < List.length l)%nat as Hn by lia.
  specialize (IH n Hn). unfold Zsum in IH. lia.
Qed.

Lemma bump_total (W H : nat) (g : grid) (i j : nat) :
  shape W H g -> (i < W)%nat -> (j < H)%nat ->
  shape W H (bump g i j) /\ grid_total (bump g i j) = grid_total g + 1.
Proof.
  unfold shape, bump, grid_total, sum_axis1. intros [Hlen Hrows] Hi Hj. split.
  - split; [now rewrite update_nth_length |].
    apply update_nth_Forall; [| assumption].
    intros row Hr. now rewrite update_nth_length.
  - subst W. revert i Hi.
    induction Hrows as [| row g Hrow Hrows IH]; intros [| i] Hi; cbn in *;
      try lia.
    + pose proof (Zsum_incr j row ltac:(lia)) as E. unfold Zsum in *.
      lia.
    + assert (i < List.length g)%nat as Hn by lia.
      specialize (IH i Hn). unfold Zsum in *. lia.
Qed.

Lemma norm_index_nonneg (i n : Z) :
  0 <= i < n -> norm_index i n = inr (Z.to_nat i).
Proof.
  intro H. unfold norm_index.
  replace (- n <=? i) with true by (symmetry; apply Z.leb_le; lia).
  replace (i <? n) with true by (symmetry; apply Z.ltb_lt; lia).
  replace (i <? 0) with false by (symmetry; apply Z.ltb_ge; lia).
  reflexivity.
Qed.

(** The increment for a particle inside the chamber: no exception, the cell
    is the one at the floors of its coordinates, the shape is kept and the
    sum of the array grows by one. *)
Lemma bump_at_in_chamber (g : grid) (w h : Z) (p : Particle) :
  shape (Z.to_nat w) (Z.to_nat h) g ->
  in_range (x p) w = true -> in_range (y p) h = true ->
  exists qx qy,
    value (x p) = Some qx /\ value (y p) = Some qy /\
    bump_at g w h p =
      inr (bump g (Z.to_nat (Qfloor qx)) (Z.to_nat (Qfloor qy))) /\
    shape (Z.to_nat w) (Z.to_nat h)
          (bump g (Z.to_nat (Qfloor qx)) (Z.to_nat (Qfloor qy))) /\
    grid_total (bump g (Z.to_nat (Qfloor qx)) (Z.to_nat (Qfloor qy))) =
      grid_total g + 1.
Proof.
  intros Hs Hx Hy.
  apply in_range_to_int in Hx. destruct Hx as (qx & Vx & Ix & Bx).
  apply in_range_to_int in Hy. destruct Hy as (qy & Vy & Iy & By).
  exists qx, qy. split; [assumption |]. split; [assumption |].
  unfold bump_at. rewrite Ix, Iy. cbn [ebind].
  rewrite !norm_index_nonneg by assumption. cbn [ebind].
  split; [reflexivity |].
  apply bump_total; [assumption | lia | lia].
Qed.

Lemma zeros_shape np_limit (w h : Z) :
  np_limit w h = None ->
  0 <= w -> 0 <= h ->
  exists g, zeros np_limit w h = inr g /\
            shape (Z.to_nat w) (Z.to_nat h) g /\ grid_total g = 0.
Proof.
  intros Hl Hw Hh. unfold zeros. rewrite Hl.
  replace (w <? 0) with false by (symmetry; apply Z.ltb_ge; lia).
  replace (h <? 0) with false by (symmetry; apply Z.ltb_ge; lia).
  cbn [orb]. eexists. split; [reflexivity |]. split.
  - split; [apply repeat_length |].
    apply Forall_forall. intros row Hr. apply repeat_spec in Hr. subst.
    apply repeat_length.
  - unfold grid_total, sum_axis1.
    assert (Zsum (repeat 0 (Z.to_nat h)) = 0) as Hrow
        by (induction (Z.to_nat h) as [| k IHk];
            [reflexivity | cbn [repeat]; rewrite Zsum_cons, IHk; reflexivity]).
    induction (Z.to_nat w) as [| n IH]; [reflexivity |].
    cbn [repeat map]. rewrite Zsum_cons, IH, Hrow. reflexivity.
Qed.

Lemma count_color_cons (col : string) (p : Particle) (ps : list Particle) :
  count_color col (p :: ps) =
  (if String.eqb (color p) col then 1 else 0) + count_color col ps.
Proof.
  unfold count_color. cbn [filter].
  destruct (String.eqb (color p) col); cbn [List.length]; lia.
Qed.

(** The loop over particles that are all inside the chamber: no exception,
    and each array's sum grows by the number of particles of its colour. *)
Lemma fill_densities_total (ps : list Particle) (w h : Z) (orange blue : grid) :
  shape (Z.to_nat w) (Z.to_nat h) orange ->
  shape (Z.to_nat w) (Z.to_nat h) blue ->
  all_in_chamber w h ps ->
  exists orange' blue',
    fill_densities ps w h orange blue = inr (orange', blue') /\
    shape (Z.to_nat w) (Z.to_nat h) orange' /\
    shape (Z.to_nat w) (Z.to_nat h) blue' /\
    grid_total orange' = grid_total orange + count_color "orange" ps /\
    grid_total blue' = grid_total blue + count_color "blue" ps.
Proof.
  intros Ho Hb Hall. revert orange blue Ho Hb.
  induction Hall as [| p ps [Hx Hy] Hall IH]; intros orange blue Ho Hb.
  - exists orange, blue. unfold count_color.
    cbn [filter List.length Z.of_nat fill_densities]. rewrite !Z.add_0_r.
    auto.
  - cbn [fill_densities]. rewrite !count_color_cons.
    destruct (String.eqb (color p) "orange") eqn:Eo.
    + apply String.eqb_eq in Eo.
      replace (String.eqb (color p) "blue") with false
        by (rewrite Eo; reflexivity).
      destruct (bump_at_in_chamber orange w h p Ho Hx Hy)
        as (qx & qy & _ & _ & -> & Hs & Ht).
      cbn [ebind].
      destruct (IH _ blue Hs Hb) as (o' & b' & -> & So & Sb & To & Tb).
      exists o', b'. lazy beta iota.
        split; [reflexivity |]. do 2 (split; [assumption |]). split; lia.
    + destruct (String.eqb (color p) "blue") eqn:Eb.
      * destruct (bump_at_in_chamber blue w h p Hb Hx Hy)
          as (qx & qy & _ & _ & -> & Hs & Ht).
        cbn [ebind].
        destruct (IH orange _ Ho Hs) as (o' & b' & -> & So & Sb & To & Tb).
        exists o', b'. lazy beta iota.
        split; [reflexivity |]. do 2 (split; [assumption |]). split; lia.
      * destruct (IH orange blue Ho Hb) as (o' & b' & -> & So & Sb & To & Tb).
        exists o', b'. lazy beta iota.
        split; [reflexivity |]. do 2 (split; [assumption |]). split; lia.
Qed.

(** ** ConcentrationDensity *)

(** In a chamber of non-negative dimensions whose arrays numpy can hold and
    whose particles all lie inside it, the probe raises nothing and each
    series sums to the number of particles of its colour. *)
Lemma concentrations_in_chamber np_limit (c : Chamber) (cycle : Z)
      (w : world) :
  np_limit (width c) (height c) = None ->
  0 <= width c -> 0 <= height c ->
  all_in_chamber (width c) (height c) (particles c) ->
  exists orange_concentration blue_concentration,
    concentrations np_limit c =
      inr (orange_concentration, blue_concentration) /\
    List.length orange_concentration = Z.to_nat (width c) /\
    List.length blue_concentration = Z.to_nat (width c) /\
    Zsum orange_concentration = count_color "orange" (particles c) /\
    Zsum blue_concentration = count_color "blue" (particles c) /\
    ConcentrationDensity_updated np_limit c cycle w =
      (Val tt,
       mkWorld (tape w)
         (log w ++
          [Screen Clear;
           Screen (Plot (arange (width c)) orange_concentration
                        "orange" "Orange Concentration");
           Screen (Plot (arange (width c)) blue_concentration
                        "blue" "Blue Concentration");
           Screen (SetXLabel "X");
           Screen (SetYLabel "Concentration");
           Screen (Legend "upper right")])).
Proof.
  intros Hl Hw Hh Hall.
  destruct (zeros_shape np_limit (width c) (height c) Hl Hw Hh)
    as (z & Hz & Sz & Tz).
  destruct (fill_densities_total (particles c) (width c) (height c) z z
              Sz Sz Hall) as (o' & b' & Hf & So & Sb & To & Tb).
  assert (concentrations np_limit c = inr (sum_axis1 o', sum_axis1 b')) as Hc.
  { unfold concentrations, densities. rewrite Hz. cbn [ebind].
    rewrite Hf. reflexivity. }
  exists (sum_axis1 o'), (sum_axis1 b').
  split; [assumption |].
  split; [unfold sum_axis1; rewrite length_map; apply So |].
  split; [unfold sum_axis1; rewrite length_map; apply Sb |].
  split; [fold (grid_total o'); lia |].
  split; [fold (grid_total b'); lia |].
  unfold ConcentrationDensity_updated. rewrite Hc.
  unfold bind, lift, ret, emit. cbn [tape log fst snd].
  repeat rewrite <- app_assoc. reflexivity.
Qed.

(** A chamber that holds a particle inside it has positive dimensions. *)
Lemma in_range_positive (a : pynum) (hi : Z) :
  in_range a hi = true -> 0 < hi.
Proof.
  intro H. apply in_range_to_int in H. destruct H as (q & _ & _ & Hb). lia.
Qed.

(** C4: conservation in ConcentrationDensity.updated.  When all particle
    positions lie in [0, width) x [0, height) and the call returns, it plots
    two series with one entry per x; the orange series sums to the number
    of orange particles and the blue series to the number of blue
    particles.  The call returns whenever numpy can hold the two arrays and
    no dimension is negative.  It raises, before anything is drawn, only
    when numpy refuses arrays of that size (with numpy's exception), or in
    a chamber without particles that has a negative dimension, where
    [np.zeros] raises ValueError. *)
Theorem concentration_series_conserve_counts np_limit
        (c : Chamber) (cycle : Z) (w : world) :
  all_in_chamber (width c) (height c) (particles c) ->
  match concentrations np_limit c with
  | inr (orange_concentration, blue_concentration) =>
      List.length orange_concentration = Z.to_nat (width c) /\
      List.length blue_concentration = Z.to_nat (width c) /\
      Zsum orange_concentration = count_color "orange" (particles c) /\
      Zsum blue_concentration = count_color "blue" (particles c) /\
      ConcentrationDensity_updated np_limit c cycle w =
        (Val tt,
         mkWorld (tape w)
           (log w ++
            [Screen Clear;
             Screen (Plot (arange (width c)) orange_concentration
                          "orange" "Orange Concentration");
             Screen (Plot (arange (width c)) blue_concentration
                          "blue" "Blue Concentration");
             Screen (SetXLabel "X");
             Screen (SetYLabel "Concentration");
             Screen (Legend "upper right")]))
  | inl e =>
      ConcentrationDensity_updated np_limit c cycle w = (Exc e, w) /\
      ((exists r, np_limit (width c) (height c) = Some r /\
                  e = refusal_exn r) \/
       (np_limit (width c) (height c) = None /\ e = ValueError /\
        particles c = [] /\ (width c < 0 \/ height c < 0)))
  end /\
  (np_limit (width c) (height c) = None ->
   0 <= width c -> 0 <= height c ->
   exists orange_concentration blue_concentration,
     concentrations np_limit c =
       inr (orange_concentration, blue_concentration)).
Proof.
  intro Hall. split.
  - destruct (np_limit (width c) (height c)) as [r |] eqn:Hl.
    { unfold ConcentrationDensity_updated, concentrations, densities, zeros.
      rewrite Hl. cbn. split; [reflexivity |]. left. eauto. }
    destruct (Z.le_gt_cases 0 (width c)) as [Hw | Hw];
      [destruct (Z.le_gt_cases 0 (height c)) as [Hh | Hh] |].
    + destruct (concentrations_in_chamber np_limit c cycle w Hl Hw Hh Hall)
        as (oc & bc & -> & H).
      exact H.
    + assert (particles c = []) as Hps.
      { destruct (particles c) as [| p ps]; [reflexivity |].
        inversion Hall as [| ? ? [_ Hy] _]; subst.
        apply in_range_positive in Hy. lia. }
      unfold ConcentrationDensity_updated, concentrations, densities, zeros.
      rewrite Hl.
      replace (height c <? 0) with true by (symmetry; apply Z.ltb_lt; lia).
      rewrite orb_true_r. cbn. split; [reflexivity |]. right. auto.
    + assert (particles c = []) as Hps.
      { destruct (particles c) as [| p ps]; [reflexivity |].
        inversion Hall as [| ? ? [Hx _] _]; subst.
        apply in_range_positive in Hx. lia. }
      unfold ConcentrationDensity_updated, concentrations, densities, zeros.
      rewrite Hl.
      replace (width c <? 0) with true by (symmetry; apply Z.ltb_lt; lia).
      cbn. split; [reflexivity |]. right. auto.
  - intros Hl Hw Hh.
    destruct (concentrations_in_chamber np_limit c cycle w Hl Hw Hh Hall)
      as (oc & bc & Hc & _).
    eauto.
Qed.

(** The sample chamber: one orange and one blue particle, series [1; 0; 0]
    and [0; 0; 1]. *)
Lemma concentration_series_conserve_counts_witness :
  all_in_chamber 3 3 (particles sample_chamber) /\
  concentrations np_limit_sample sample_chamber =
    inr ([1; 0; 0], [0; 0; 1]) /\
  Zsum [1; 0; 0] = count_color "orange" (particles sample_chamber) /\
  Zsum [0; 0; 1] = count_color "blue" (particles sample_chamber).
Proof.
  assert (all_in_chamber 3 3 (particles sample_chamber)) as Hall
      by (repeat constructor).
  split; [exact Hall |].
  pose proof (concentration_series_conserve_counts np_limit_sample
                sample_chamber 7 sample_world Hall) as [H _].
  assert (concentrations np_limit_sample sample_chamber =
          inr ([1; 0; 0], [0; 0; 1])) as E
      by reflexivity.
  rewrite E in H. destruct H as (_ & _ & Ho & Hb & _). auto.
Defined.

(** ** Which cell a particle increments *)

Lemma value_075 :
  value (x particle_075) = Some (6755399441055744 # 9007199254740992).
Proof. vm_compute. reflexivity. Qed.

Lemma nearest_to_075 (i : Z) : is_nearest_int (x particle_075) i -> i = 1.
Proof.
  intros (q & Hq & Hle). rewrite value_075 in Hq. inversion Hq; subst q.
  apply Qabs_Qle_condition in Hle. destruct Hle as [Hlo Hhi].
  unfold Qle, Qminus, Qplus, Qopp, inject_Z in Hlo, Hhi.
  cbn [Qnum Qden] in Hlo, Hhi. lia.
Qed.

(** C10, as stated, fails: the orange particle at (0.75, 0), inside a
    3 x 3 chamber, increments cell (0, 0), while the only integer nearest
    to 0.75 is 1. *)
Lemma nearest_cell_refuted :
  in_range (x particle_075) 3 = true /\
  in_range (y particle_075) 3 = true /\
  bump_at zeros_3x3 3 3 particle_075 =
    inr [[1; 0; 0]; [0; 0; 0]; [0; 0; 0]] /\
  densities np_limit_sample (mkChamber 3 3 (PInt 75) [particle_075] []) =
    inr ([[1; 0; 0]; [0; 0; 0]; [0; 0; 0]], zeros_3x3) /\
  ~ increments_nearest_cell zeros_3x3 3 3 particle_075.
Proof.
  split; [reflexivity |]. split; [reflexivity |].
  split; [vm_compute; reflexivity |]. split; [vm_compute; reflexivity |].
  intros (i & j & Hi & _ & Hb).
  apply nearest_to_075 in Hi. subst i.
  assert (bump_at zeros_3x3 3 3 particle_075 =
          inr [[1; 0; 0]; [0; 0; 0]; [0; 0; 0]]) as E
      by (vm_compute; reflexivity).
  rewrite E in Hb. inversion Hb.
Qed.

Lemma in_range_trunc_floor (a : pynum) (hi : Z) (q : Q) :
  in_range a hi = true -> value a = Some q ->
  Qtrunc q = Qfloor q /\ 0 <= Qfloor q < hi.
Proof.
  intros Hr Hv. apply in_range_to_int in Hr.
  destruct Hr as (q' & Hv' & Hi & Hb).
  rewrite Hv in Hv'. inversion Hv'; subst q'.
  apply to_int_trunc in Hv. rewrite Hv in Hi. inversion Hi as [E].
  rewrite E. auto.
Qed.

(** C10, amended: both probes build their occupancy arrays with the same
    loop, and for each particle with finite coordinates that loop
    increments, in the array of the particle's colour, the cell indexed by
    the coordinates truncated toward zero ([int]); inside the chamber that
    is the cell at the floors of the coordinates. *)
Theorem probes_increment_truncated_cell
        (p : Particle) (ps : list Particle) (w h : Z) (orange blue : grid)
        (qx qy : Q) :
  value (x p) = Some qx ->
  value (y p) = Some qy ->
  fill_densities (p :: ps) w h orange blue =
    (if String.eqb (color p) "orange" then
       orange' <~ bump_truncated orange w h qx qy ;;
       fill_densities ps w h orange' blue
     else if String.eqb (color p) "blue" then
       blue' <~ bump_truncated blue w h qx qy ;;
       fill_densities ps w h orange blue'
     else fill_densities ps w h orange blue) /\
  (in_range (x p) w = true -> in_range (y p) h = true ->
   forall g, bump_truncated g w h qx qy =
             inr (bump g (Z.to_nat (Qfloor qx)) (Z.to_nat (Qfloor qy)))) /\
  (forall np_limit c,
      concentrations np_limit c =
      (d <~ densities np_limit c ;;
       inr (sum_axis1 (fst d), sum_axis1 (snd d)))) /\
  (forall np_limit log2 np_sum c,
      total_entropy np_limit log2 np_sum c =
      (d <~ densities np_limit c ;;
       inr (PFloat (np_sum (List.concat (entropy log2 (fst d) (snd d))))))).
Proof.
  intros Vx Vy.
  assert (forall g, bump_at g w h p = bump_truncated g w h qx qy) as Hb.
  { intro g. unfold bump_at, bump_truncated.
    rewrite (to_int_trunc _ _ Vx), (to_int_trunc _ _ Vy). reflexivity. }
  split.
  - cbn [fill_densities]. rewrite !Hb. reflexivity.
  - split; [| split; reflexivity].
    intros Hx Hy g.
    destruct (in_range_trunc_floor _ _ _ Hx Vx) as [Ex Bx].
    destruct (in_range_trunc_floor _ _ _ Hy Vy) as [Ey By].
    unfold bump_truncated. rewrite Ex, Ey.
    rewrite !norm_index_nonneg by assumption. reflexivity.
Qed.

(** The particle at (0.75, 0): truncation selects cell (0, 0). *)
Lemma probes_increment_truncated_cell_witness :
  value (x particle_075) = Some (6755399441055744 # 9007199254740992) /\
  value (y particle_075) = Some (inject_Z 0) /\
  fill_densities [particle_075] 3 3 zeros_3x3 zeros_3x3 =
    (orange' <~ bump_truncated zeros_3x3 3 3
                  (6755399441055744 # 9007199254740992) (inject_Z 0) ;;
     inr (orange', zeros_3x3)) /\
  bump_truncated zeros_3x3 3 3
    (6755399441055744 # 9007199254740992) (inject_Z 0) =
    inr (bump zeros_3x3 0 0).
Proof.
  destruct (probes_increment_truncated_cell particle_075 [] 3 3
              zeros_3x3 zeros_3x3 _ _ value_075 eq_refl)
    as (Hf & Hr & _).
  split; [exact value_075 |]. split; [reflexivity |].
  split; [exact Hf |].
  exact (Hr eq_refl eq_refl zeros_3x3).
Defined.

(** ** SystemEntropy: empty cells *)

Lemma nth_error_zip_with {A B C : Type} (f : A -> B -> C)
      (l : list A) (l' : list B) (i : nat) :
  nth_error (zip_with f l l') i =
  match nth_error l i, nth_error l' i with
  | Some a, Some b => Some (f a b)
  | _, _ => None
  end.
Proof.
  revert l' i. induction l as [| a l IH]; intros [| b l'] [| i]; cbn;
    try reflexivity.
  - now destruct (nth_error l i).
  - apply IH.
Qed.

Lemma cell_grid_zip {A B C : Type} (f : A -> B -> C)
      (g : list (list A)) (g' : list (list B)) (i j : nat) :
  cell (grid_zip f g g') i j =
  match cell g i j, cell g' i j with
  | Some a, Some b => Some (f a b)
  | _, _ => None
  end.
Proof.
  unfold cell, grid_zip. rewrite nth_error_zip_with.
  destruct (nth_error g i) as [row |], (nth_error g' i) as [row' |];
    try reflexivity.
  - apply nth_error_zip_with.
  - now destruct (nth_error row j).
Qed.

Lemma cell_grid_map {A B : Type} (f : A -> B) (g : list (list A)) (i j : nat) :
  cell (grid_map f g) i j = option_map f (cell g i j).
Proof.
  unfold cell, grid_map. rewrite nth_error_map.
  destruct (nth_error g i) as [row |]; cbn; [apply nth_error_map | reflexivity].
Qed.

Lemma cell_nonneg (g : grid) (i j : nat) (n : Z) :
  nonneg_grid g -> cell g i j = Some n -> 0 <= n.
Proof.
  unfold nonneg_grid, cell. intros Hg H.
  destruct (nth_error g i) as [row |] eqn:Hr; [| discriminate].
  apply nth_error_In in Hr. apply nth_error_In in H.
  rewrite Forall_forall in Hg. specialize (Hg row Hr).
  rewrite Forall_forall in Hg. now apply Hg.
Qed.

Lemma bump_nonneg (g : grid) (i j : nat) :
  nonneg_grid g -> nonneg_grid (bump g i j).
Proof.
  unfold nonneg_grid, bump. intro H.
  apply update_nth_Forall; [| assumption].
  intros row Hrow. apply update_nth_Forall; [| assumption].
  intros n Hn. lia.
Qed.

Lemma bump_at_nonneg (g g' : grid) (w h : Z) (p : Particle) :
  nonneg_grid g -> bump_at g w h p = inr g' -> nonneg_grid g'.
Proof.
  unfold bump_at. intros Hg H.
  repeat (apply ebind_inr in H; destruct H as (? & _ & H)).
  inversion H; subst. now apply bump_nonneg.
Qed.

Lemma to_int_exn (a : pynum) (e : exn) :
  to_int a = inl e -> e <> ZeroDivisionError.
Proof.
  destruct a as [n | [s | s | | s m k]]; cbn; intro H; inversion H;
    discriminate.
Qed.

Lemma norm_index_exn (i n : Z) (e : exn) :
  norm_index i n = inl e -> e <> ZeroDivisionError.
Proof.
  unfold norm_index. destruct ((- n <=? i) && (i <? n)); intro H;
    inversion H; discriminate.
Qed.

(** What building the arrays can raise: never a division error. *)
Lemma bump_at_exn (g : grid) (w h : Z) (p : Particle) (e : exn) :
  bump_at g w h p = inl e -> e <> ZeroDivisionError.
Proof.
  unfold bump_at.
  destruct (to_int (x p)) as [e1 | ix] eqn:Ex; cbn [ebind].
  { intro H. inversion H; subst. now apply to_int_exn in Ex. }
  destruct (to_int (y p)) as [e1 | iy] eqn:Ey; cbn [ebind].
  { intro H. inversion H; subst. now apply to_int_exn in Ey. }
  destruct (norm_index ix w) as [e1 | i] eqn:Ei; cbn [ebind].
  { intro H. inversion H; subst. now apply norm_index_exn in Ei. }
  destruct (norm_index iy h) as [e1 | j] eqn:Ej; cbn [ebind].
  { intro H. inversion H; subst. now apply norm_index_exn in Ej. }
  discriminate.
Qed.

Lemma fill_densities_nonneg (ps : list Particle) (w h : Z)
      (orange blue : grid) :
  nonneg_grid orange -> nonneg_grid blue ->
  match fill_densities ps w h orange blue with
  | inl e => e <> ZeroDivisionError
  | inr (orange', blue') => nonneg_grid orange' /\ nonneg_grid blue'
  end.
Proof.
  revert orange blue. induction ps as [| p ps IH]; intros orange blue Ho Hb.
  - cbn. auto.
  - cbn [fill_densities].
    destruct (String.eqb (color p) "orange").
    + destruct (bump_at orange w h p) as [e | g'] eqn:E; cbn [ebind].
      * now apply bump_at_exn in E.
      * exact (IH _ _ (bump_at_nonneg _ _ _ _ _ Ho E) Hb).
    + destruct (String.eqb (color p) "blue").
      * destruct (bump_at blue w h p) as [e | g'] eqn:E; cbn [ebind].
        -- now apply bump_at_exn in E.
        -- exact (IH _ _ Ho (bump_at_nonneg _ _ _ _ _ Hb E)).
      * exact (IH _ _ Ho Hb).
Qed.

Lemma zeros_nonneg np_limit (w h : Z) :
  match zeros np_limit w h with
  | inl e => e <> ZeroDivisionError
  | inr g => nonneg_grid g
  end.
Proof.
  unfold zeros. destruct (np_limit w h) as [[| |] |]; try discriminate.
  destruct ((w <? 0) || (h <? 0)); [discriminate |].
  apply Forall_forall. intros row Hr. apply repeat_spec in Hr. subst.
  apply Forall_forall. intros n Hn. apply repeat_spec in Hn. lia.
Qed.

Lemma densities_nonneg np_limit (c : Chamber) :
  match densities np_limit c with
  | inl e => e <> ZeroDivisionError
  | inr (orange, blue) => nonneg_grid orange /\ nonneg_grid blue
  end.
Proof.
  unfold densities.
  pose proof (zeros_nonneg np_limit (width c) (height c)) as Hz.
  destruct (zeros np_limit (width c) (height c)) as [e | z]; cbn [ebind];
    [assumption |].
  exact (fill_densities_nonneg _ _ _ _ _ Hz Hz).
Qed.

(** Adding a zero to a partial sum leaves the sum numerically unchanged. *)
Lemma fadd_zero_neutral (acc : spec_float) (s : bool) :
  acc <> S754_nan ->
  SFeqb (fadd acc (S754_zero s)) acc = true /\
  SFeqb (fadd (S754_zero s) acc) acc = true.
Proof.
  intro Hn. unfold fadd, SFeqb.
  destruct acc as [s' | s' | | s' m e]; [| | congruence |].
  - destruct s, s'; split; reflexivity.
  - destruct s'; split; reflexivity.
  - cbn [SFadd SFcompare]. rewrite Z.compare_refl.
    destruct s'; rewrite Pos.compare_cont_refl; split; reflexivity.
Qed.

(** The entropy of a cell without particles, for a finite [log2(1e-9)]. *)
Lemma cell_entropy_empty log2 :
  (forall s, log2 eps <> S754_infinity s) ->
  log2 eps <> S754_nan ->
  exists s, cell_entropy log2 (S754_zero false) (S754_zero false) =
            S754_zero s.
Proof.
  intros Hinf Hnan. unfold cell_entropy.
  change (fadd (S754_zero false) eps) with eps.
  destruct (log2 eps) as [s | s | | s m e] eqn:E.
  - destruct s; eexists; reflexivity.
  - now elim (Hinf s).
  - now elim Hnan.
  - destruct s; eexists; reflexivity.
Qed.

(** *** Counts as floats *)

Lemma digits2_pos_lower (p : positive) :
  2 ^ (Z.pos (digits2_pos p) - 1) <= Z.pos p.
Proof.
  induction p as [p IH | p IH |]; cbn [digits2_pos].
  - rewrite Pos2Z.inj_succ.
    replace (Z.succ (Z.pos (digits2_pos p)) - 1)
      with (Z.succ (Z.pos (digits2_pos p) - 1)) by lia.
    rewrite Z.pow_succ_r by lia. lia.
  - rewrite Pos2Z.inj_succ.
    replace (Z.succ (Z.pos (digits2_pos p)) - 1)
      with (Z.succ (Z.pos (digits2_pos p) - 1)) by lia.
    rewrite Z.pow_succ_r by lia. lia.
  - cbn. lia.
Qed.

Lemma digits2_pos_iter (p k : positive) :
  digits2_pos (Pos.iter xO p k) = (digits2_pos p + k)%positive.
Proof.
  induction k as [| k IH] using Pos.peano_ind.
  - cbn. lia.
  - rewrite Pos.iter_succ. cbn [digits2_pos]. rewrite IH. lia.
Qed.

(** A count from 1 to 2^53 - 1 becomes a finite float that is not zero:
    the conversion only shifts the mantissa to 53 bits. *)
Lemma Z2F_count_not_zero (t : Z) :
  1 <= t < 2 ^ 53 -> is_zero (Z2F t) = false.
Proof.
  intros [Hlo Hp]. destruct t as [| p | p]; try lia.
  assert (Z.pos (digits2_pos p) <= 53) as Hd.
  { pose proof (digits2_pos_lower p) as Hl.
    destruct (Z.le_gt_cases (Z.pos (digits2_pos p)) 53) as [H | H];
      [exact H |].
    exfalso.
    assert (2 ^ 53 <= 2 ^ (Z.pos (digits2_pos p) - 1))
      by (apply Z.pow_le_mono_r; lia).
    lia. }
  unfold Z2F, binary_normalize, binary_round.
  set (d := digits2_pos p) in *.
  assert (fexp prec emax (Z.pos d + 0) = Z.pos d - 53) as Hf
      by (unfold fexp, emin, prec, emax; lia).
  rewrite Hf.
  assert (exists mz, shl_align p 0 (Z.pos d - 53) = (mz, Z.pos d - 53) /\
                     Z.pos (digits2_pos mz) = 53) as (mz & Hs & Hm).
  { unfold shl_align. destruct (Z.pos d - 53 - 0) as [| q | q] eqn:E.
    - exists p. split; [f_equal; lia | fold d; lia].
    - lia.
    - eexists. split; [reflexivity |].
      rewrite digits2_pos_iter. fold d. lia. }
  rewrite Hs. unfold binary_round_aux.
  assert (forall m, Z.pos (digits2_pos m) = 53 ->
            shr_fexp prec emax (Z.pos m) (Z.pos d - 53) loc_Exact =
            (Build_shr_record (Z.pos m) false false, Z.pos d - 53)) as Hshr.
  { intros m Hm'. unfold shr_fexp. cbn [Zdigits2 shr_record_of_loc].
    rewrite Hm'.
    replace (fexp prec emax (53 + (Z.pos d - 53)) - (Z.pos d - 53)) with 0
      by (unfold fexp, emin, prec, emax; lia).
    reflexivity. }
  rewrite (Hshr mz Hm). cbn [shr_m loc_of_shr_record round_nearest_even].
  rewrite (Hshr mz Hm). cbn [shr_m].
  replace (Z.pos d - 53 <=? emax - prec) with true
    by (symmetry; apply Z.leb_le; unfold emax, prec; lia).
  reflexivity.
Qed.

Lemma cell_total_particles (orange blue : grid) (i j : nat) :
  cell (total_particles orange blue) i j =
  match cell orange i j, cell blue i j with
  | Some co, Some cb => Some (if co + cb =? 0 then 1 else co + cb)
  | _, _ => None
  end.
Proof.
  unfold total_particles. rewrite cell_grid_map, cell_grid_zip.
  destruct (cell orange i j), (cell blue i j); reflexivity.
Qed.

(** C9: SystemEntropy.updated divides by no zero, for every particle
    configuration.  Either building the occupancy arrays raises (an index,
    value, overflow or memory error, before any division; never a division
    error),
    or the entropy is computed without exception and: every cell of the
    divisor array [total_particles] is at least 1 (and, below 2^53, a
    float that is not zero); in a cell whose two
    counts sum to 0 the divisor is 1, both probabilities are 0.0, and the
    cell's entropy is a zero, which leaves any partial sum it is added to
    numerically unchanged.  ([log2(1e-9)] is assumed finite.) *)
Theorem entropy_divides_by_no_zero np_limit log2 np_sum (c : Chamber) :
  (forall s, log2 eps <> S754_infinity s) ->
  log2 eps <> S754_nan ->
  match densities np_limit c with
  | inl e =>
      total_entropy np_limit log2 np_sum c = inl e /\ e <> ZeroDivisionError
  | inr (orange, blue) =>
      let total := total_particles orange blue in
      total_entropy np_limit log2 np_sum c =
        inr (PFloat (np_sum (List.concat (entropy log2 orange blue)))) /\
      (forall i j t, cell total i j = Some t ->
                     1 <= t /\ (t < 2 ^ 53 -> is_zero (Z2F t) = false)) /\
      (forall i j co cb,
          cell orange i j = Some co -> cell blue i j = Some cb ->
          co + cb = 0 ->
          cell total i j = Some 1 /\
          cell (prob orange total) i j = Some (S754_zero false) /\
          cell (prob blue total) i j = Some (S754_zero false) /\
          exists s,
            cell (entropy log2 orange blue) i j = Some (S754_zero s) /\
            forall acc, acc <> S754_nan ->
                        SFeqb (fadd acc (S754_zero s)) acc = true /\
                        SFeqb (fadd (S754_zero s) acc) acc = true)
  end.
Proof.
  intros Hinf Hnan.
  pose proof (densities_nonneg np_limit c) as Hd. unfold total_entropy.
  destruct (densities np_limit c) as [e | [orange blue]];
    cbn [ebind fst snd].
  { auto. }
  destruct Hd as [Ho Hb]. cbv zeta.
  split; [reflexivity |]. split.
  - intros i j t. rewrite cell_total_particles.
    destruct (cell orange i j) as [co |] eqn:Eo; [| discriminate].
    destruct (cell blue i j) as [cb |] eqn:Eb; [| discriminate].
    pose proof (cell_nonneg _ _ _ _ Ho Eo).
    pose proof (cell_nonneg _ _ _ _ Hb Eb).
    intro H1. inversion H1; subst.
    assert (1 <= (if co + cb =? 0 then 1 else co + cb)) as Hone.
    { destruct (co + cb =? 0) eqn:E0; [lia |].
      apply Z.eqb_neq in E0. lia. }
    split; [exact Hone |]. intro Hbig. apply Z2F_count_not_zero. lia.
  - intros i j co cb Eo Eb Hsum.
    pose proof (cell_nonneg _ _ _ _ Ho Eo).
    pose proof (cell_nonneg _ _ _ _ Hb Eb).
    assert (co = 0) by lia. assert (cb = 0) by lia. subst co cb.
    assert (cell (total_particles orange blue) i j = Some 1) as Et
        by (rewrite cell_total_particles, Eo, Eb; reflexivity).
    assert (cell (prob orange (total_particles orange blue)) i j =
            Some (S754_zero false)) as Epo
        by (unfold prob; rewrite cell_grid_zip, Eo, Et; reflexivity).
    assert (cell (prob blue (total_particles orange blue)) i j =
            Some (S754_zero false)) as Epb
        by (unfold prob; rewrite cell_grid_zip, Eb, Et; reflexivity).
    do 3 (split; [assumption |]).
    destruct (cell_entropy_empty log2 Hinf Hnan) as [s Hs].
    exists s. split.
    + unfold entropy. rewrite cell_grid_zip, Epo, Epb, Hs. reflexivity.
    + intros acc Hacc. now apply fadd_zero_neutral.
Qed.

(** An empty 2 x 1 chamber: both cells empty, each entropy cell a zero. *)
Lemma entropy_divides_by_no_zero_witness :
  (forall s, log2_sample eps <> S754_infinity s) /\
  log2_sample eps <> S754_nan /\
  total_entropy np_limit_sample log2_sample sum_sample
    (mkChamber 2 1 (PInt 75) [] []) =
    inr (PFloat (S754_zero false)) /\
  cell (total_particles [[0]; [0]] [[0]; [0]]) 1 0 = Some 1.
Proof.
  assert (forall s, log2_sample eps <> S754_infinity s) as Hinf
      by (intro s; vm_compute; discriminate).
  assert (log2_sample eps <> S754_nan) as Hnan
      by (vm_compute; discriminate).
  pose proof (entropy_divides_by_no_zero np_limit_sample log2_sample
                sum_sample (mkChamber 2 1 (PInt 75) [] []) Hinf Hnan) as H.
  change (densities np_limit_sample (mkChamber 2 1 (PInt 75) [] []))
    with (@inr exn (grid * grid) ([[0]; [0]], [[0]; [0]])) in H.
  destruct H as (Ht & _ & He).
  destruct (He 1%nat 0%nat 0 0 eq_refl eq_refl eq_refl) as (Hc & _).
  repeat split; assumption.
Defined.

(** ** Seeding the chamber *)

Lemma randint_empty_range (w : Z) (wd : world) :
  w <= 0 -> randint 0 (w - 1) wd = (Exc ValueError, wd).
Proof.
  intro H. unfold randint.
  replace (w - 1 - 0 + 1 <=? 0) with true by (symmetry; apply Z.leb_le; lia).
  reflexivity.
Qed.

Lemma randint_draw (w : Z) (wd : world) :
  0 < w ->
  randint 0 (w - 1) wd =
  match tape wd with
  | [] => (Starved, wd)
  | r :: t => (Val (Z.of_nat r mod w), mkWorld t (log wd))
  end.
Proof.
  intro H. unfold randint.
  replace (w - 1 - 0 + 1 <=? 0) with false by (symmetry; apply Z.leb_gt; lia).
  replace (w - 1 - 0 + 1) with w by lia.
  unfold bind, next_raw. destruct (tape wd); reflexivity.
Qed.

(** The rejection loop in a chamber of positive dimensions: it raises
    nothing, writes nothing to the log, and what it returns is a free cell,
    inside the chamber if the cell it started from was. *)
Lemma resample_free (fuel : nat) (ps : list Particle) (w h cx cy : Z)
      (wd : world) :
  0 < w -> 0 < h -> 0 <= cx < w -> 0 <= cy < h ->
  match resample fuel ps w h cx cy wd with
  | (Val (fx, fy), wd') =>
      is_position_occupied ps fx fy = false /\
      0 <= fx < w /\ 0 <= fy < h /\ log wd' = log wd
  | (Exc _, _) => False
  | (Starved, wd') => log wd' = log wd
  end.
Proof.
  intros Hw Hh. revert cx cy wd.
  induction fuel as [| fuel IH]; intros cx cy wd Hx Hy; cbn [resample];
    destruct (is_position_occupied ps cx cy) eqn:Ho;
    try (cbn; auto; fail).
  unfold bind at 1. rewrite (randint_draw w wd Hw).
  destruct (tape wd) as [| r1 t1]; [reflexivity |].
  unfold bind at 1. rewrite (randint_draw h _ Hh). cbn [tape log].
  destruct t1 as [| r2 t2]; [reflexivity |].
  specialize (IH (Z.of_nat r1 mod w) (Z.of_nat r2 mod h)
                 (mkWorld t2 (log wd))
                 (Z.mod_pos_bound _ _ Hw) (Z.mod_pos_bound _ _ Hh)).
  exact IH.
Qed.

Lemma eqb_PInt_refl (n : Z) : PyNum.eqb (PInt n) (PInt n) = true.
Proof. unfold PyNum.eqb. cbn. now rewrite Z.compare_refl. Qed.

(** A cell the scan reports free holds no particle. *)
Lemma free_cell_not_in (ps : list Particle) (cx cy : Z) :
  is_position_occupied ps cx cy = false ->
  ~ In (PInt cx, PInt cy) (map position ps).
Proof.
  induction ps as [| p ps IH]; cbn [is_position_occupied map]; [auto |].
  destruct (PyNum.eqb (x p) (PInt cx) && PyNum.eqb (y p) (PInt cy)) eqn:E;
    [discriminate |].
  intros H [Hp | Hin]; [| now apply IH].
  unfold position in Hp. inversion Hp as [[Ex Ey]].
  rewrite Ex, Ey, !eqb_PInt_refl in E. discriminate.
Qed.

(** One turn of the seeding loop in a chamber of positive dimensions: it
    raises nothing; when it returns it has appended one particle, at a free
    cell inside the chamber, coloured by the midline rule. *)
Lemma place_particle_spec (ps : list Particle) (w h : Z) (wd : world) :
  0 < w -> 0 < h ->
  match place_particle ps w h wd with
  | (Val ps', wd') =>
      exists fx fy,
        ps' = ps ++ [mkParticle (PInt fx) (PInt fy)
                       (if fx <? w / 2 then "orange" else "blue")] /\
        is_position_occupied ps fx fy = false /\
        0 <= fx < w /\ 0 <= fy < h /\ log wd' = log wd
  | (Exc _, _) => False
  | (Starved, _) => True
  end.
Proof.
  intros Hw Hh. unfold place_particle.
  unfold bind at 1. rewrite (randint_draw w wd Hw).
  destruct (tape wd) as [| r1 t1]; [exact I |].
  unfold bind at 1. rewrite (randint_draw h _ Hh). cbn [tape log].
  destruct t1 as [| r2 t2]; [exact I |].
  unfold bind at 1. cbn [tape].
  pose proof (resample_free (List.length t2) ps w h
                (Z.of_nat r1 mod w) (Z.of_nat r2 mod h)
                (mkWorld t2 (log wd)) Hw Hh
                (Z.mod_pos_bound _ _ Hw) (Z.mod_pos_bound _ _ Hh)) as Hr.
  destruct (resample (List.length t2) ps w h (Z.of_nat r1 mod w)
              (Z.of_nat r2 mod h) (mkWorld t2 (log wd)))
    as [[[fx fy] | e |] wd1]; [| exact Hr | exact I].
  destruct Hr as (Hfree & Hx & Hy & Hlog).
  unfold ret. exists fx, fy. auto.
Qed.

Lemma seeded_append (w h : Z) (ps : list Particle) (fx fy : Z) :
  Forall (seeded w h) ps -> NoDup (map position ps) ->
  is_position_occupied ps fx fy = false ->
  0 <= fx < w -> 0 <= fy < h ->
  let p := mkParticle (PInt fx) (PInt fy)
             (if fx <? w / 2 then "orange" else "blue") in
  Forall (seeded w h) (ps ++ [p]) /\ NoDup (map position (ps ++ [p])).
Proof.
  intros Hs Hn Hfree Hx Hy p. split.
  - apply Forall_app. split; [assumption |].
    constructor; [| constructor].
    exists fx, fy. auto.
  - rewrite map_app. apply NoDup_app; [assumption | |].
    + cbn. constructor; [intros [] | constructor].
    + intros a Ha [Hp | []]. subst a.
      now apply (free_cell_not_in ps fx fy Hfree).
Qed.

(** The seeding loop in a chamber of positive dimensions: it raises
    nothing; when it returns, [n] particles were appended, every particle
    is as [init_particles] creates it, and no two share a cell. *)
Lemma place_particles_spec (n : nat) (ps : list Particle) (w h : Z)
      (wd : world) :
  0 < w -> 0 < h ->
  Forall (seeded w h) ps -> NoDup (map position ps) ->
  match place_particles n ps w h wd with
  | (Val ps', wd') =>
      Forall (seeded w h) ps' /\ NoDup (map position ps') /\
      List.length ps' = (List.length ps + n)%nat /\ log wd' = log wd
  | (Exc _, _) => False
  | (Starved, _) => True
  end.
Proof.
  intros Hw Hh. revert ps wd.
  induction n as [| n IH]; intros ps wd Hs Hn; cbn [place_particles].
  - unfold ret. rewrite Nat.add_0_r. auto.
  - unfold bind.
    pose proof (place_particle_spec ps w h wd Hw Hh) as Hp.
    destruct (place_particle ps w h wd) as [[ps1 | e |] wd1];
      [| exact Hp | exact I].
    destruct Hp as (fx & fy & -> & Hfree & Hx & Hy & Hlog).
    destruct (seeded_append w h ps fx fy Hs Hn Hfree Hx Hy) as [Hs1 Hn1].
    specialize (IH _ wd1 Hs1 Hn1).
    destruct (place_particles n _ w h wd1) as [[ps2 | e |] wd2];
      [| exact IH | exact I].
    destruct IH as (Hs2 & Hn2 & Hlen & Hlog2).
    rewrite length_app in Hlen. cbn [List.length] in Hlen.
    repeat split; try assumption; [lia | congruence].
Qed.

(** With an empty range for [randint] the first turn raises ValueError. *)
Lemma place_particles_bad_size (n : nat) (ps : list Particle) (w h : Z)
      (wd : world) :
  w <= 0 ->
  place_particles (S n) ps w h wd = (Exc ValueError, wd).
Proof.
  intro Hw. cbn [place_particles]. unfold bind, place_particle.
  unfold bind. now rewrite (randint_empty_range w wd Hw).
Qed.

(** The bound on the turns of the rejection loop never cuts a run short:
    any bound from the length of the tape on gives the same outcome. *)
Lemma resample_fuel_enough (ps : list Particle) (w h : Z) (fuel1 fuel2 : nat)
      (cx cy : Z) (wd : world) :
  0 < w -> 0 < h ->
  (List.length (tape wd) <= fuel1)%nat ->
  (List.length (tape wd) <= fuel2)%nat ->
  resample fuel1 ps w h cx cy wd = resample fuel2 ps w h cx cy wd.
Proof.
  intros Hw Hh. revert fuel2 cx cy wd.
  induction fuel1 as [| fuel1 IH]; intros fuel2 cx cy wd H1 H2.
  - destruct (tape wd) as [| r t] eqn:Et; [| cbn in H1; lia].
    destruct fuel2 as [| fuel2]; [reflexivity |].
    cbn [resample]. destruct (is_position_occupied ps cx cy); [| reflexivity].
    unfold bind. rewrite (randint_draw w wd Hw), Et. reflexivity.
  - destruct fuel2 as [| fuel2].
    + destruct (tape wd) as [| r t] eqn:Et; [| cbn in H2; lia].
      cbn [resample]. destruct (is_position_occupied ps cx cy); [| reflexivity].
      unfold bind. rewrite (randint_draw w wd Hw), Et. reflexivity.
    + cbn [resample]. destruct (is_position_occupied ps cx cy); [| reflexivity].
      unfold bind.
      rewrite (randint_draw w wd Hw).
      destruct (tape wd) as [| r1 t1] eqn:Et; [reflexivity |].
      rewrite (randint_draw h _ Hh). cbn [tape log].
      destruct t1 as [| r2 t2]; [reflexivity |].
      cbn [List.length] in H1, H2.
      apply IH; cbn [tape]; lia.
Qed.


Lemma fill_count_exact_on_spec (n : nat) (from size : Z) :
  fill_count_exact_on n from = true ->
  from <= size < from + Z.of_nat n ->
  fill_count size = inr (4 * size * size / 5).
Proof.
  revert from. induction n as [| n IH]; intros from H Hr; [lia |].
  cbn [fill_count_exact_on] in H. apply andb_prop in H. destruct H as [H1 H2].
  destruct (Z.eq_dec size from) as [-> | Hne].
  - destruct (fill_count from) as [e | k]; [discriminate |].
    apply Z.eqb_eq in H1. now subst.
  - apply (IH (from + 1)); [assumption | lia].
Qed.

(** For every size up to 32768 the float product [0.8 * size * size],
    truncated, is the floor of the exact four fifths of [size * size]. *)
Lemma fill_count_is_floor (size : Z) :
  0 < size <= 32768 -> fill_count size = inr (4 * size * size / 5).
Proof.
  intro H.
  assert (fill_count_exact_on (Z.to_nat 32768) 1 = true) as Hall
      by (vm_compute; reflexivity).
  apply (fill_count_exact_on_spec _ _ size Hall). lia.
Qed.




(** *** Seeding can complete *)

Lemma eqb_PInt_true (a b : Z) : PyNum.eqb (PInt a) (PInt b) = true -> a = b.
Proof.
  unfold PyNum.eqb. cbn. destruct (Z.compare_spec a b); auto; discriminate.
Qed.

Lemma occupied_app (ps : list Particle) (p : Particle) (cx cy : Z) :
  is_position_occupied (ps ++ [p]) cx cy =
  is_position_occupied ps cx cy ||
  (PyNum.eqb (x p) (PInt cx) && PyNum.eqb (y p) (PInt cy)).
Proof.
  induction ps as [| q ps IH]; cbn [app is_position_occupied].
  - now destruct (PyNum.eqb (x p) (PInt cx) && PyNum.eqb (y p) (PInt cy)).
  - destruct (PyNum.eqb (x q) (PInt cx) && PyNum.eqb (y q) (PInt cy));
      [reflexivity | exact IH].
Qed.

(** A turn whose first proposal is a free cell takes it. *)
Lemma place_particle_run (ps : list Particle) (w h : Z) (r1 r2 : nat)
      (t : list nat) (lg : list event) :
  0 < w -> 0 < h ->
  is_position_occupied ps (Z.of_nat r1 mod w) (Z.of_nat r2 mod h) = false ->
  place_particle ps w h (mkWorld (r1 :: r2 :: t) lg) =
  (Val (ps ++ [mkParticle (PInt (Z.of_nat r1 mod w)) (PInt (Z.of_nat r2 mod h))
                 (if Z.of_nat r1 mod w <? w / 2 then "orange" else "blue")]),
   mkWorld t lg).
Proof.
  intros Hw Hh Hfree. unfold place_particle.
  unfold bind at 1. rewrite (randint_draw w _ Hw). cbn [tape log].
  unfold bind at 1. rewrite (randint_draw h _ Hh). cbn [tape log].
  unfold bind at 1. cbn [tape].
  destruct (List.length t); cbn [resample]; rewrite Hfree; reflexivity.
Qed.

(** Given draws that propose the cells one after the other, the seeding
    loop places every particle at its first proposal: for any number of
    particles up to the number of cells, construction can complete. *)
Lemma sweep_places (s : nat) (n k : nat) (ps : list Particle)
      (rest : list nat) (lg : list event) :
  (0 < s)%nat -> (k + n <= s * s)%nat ->
  (forall cx cy, is_position_occupied ps cx cy = true ->
     exists j, (j < k)%nat /\
               cx = Z.of_nat (j mod s) /\ cy = Z.of_nat (j / s)) ->
  exists ps',
    place_particles n ps (Z.of_nat s) (Z.of_nat s)
      (mkWorld (sweep_tape_from s k n ++ rest) lg) =
    (Val ps', mkWorld rest lg).
Proof.
  intros Hs. revert k ps.
  induction n as [| n IH]; intros k ps Hk Hocc.
  - exists ps. reflexivity.
  - cbn [place_particles sweep_tape_from seq flat_map app].
    assert (0 < Z.of_nat s) as Hz by lia.
    assert (Z.of_nat (k mod s) mod Z.of_nat s = Z.of_nat (k mod s)) as Ex.
    { apply Z.mod_small. pose proof (Nat.mod_upper_bound k s). lia. }
    assert (Z.of_nat (k / s) mod Z.of_nat s = Z.of_nat (k / s)) as Ey.
    { apply Z.mod_small.
      assert (k / s < s)%nat by (apply Nat.Div0.div_lt_upper_bound; lia).
      lia. }
    assert (is_position_occupied ps (Z.of_nat (k mod s)) (Z.of_nat (k / s))
            = false) as Hfree.
    { destruct (is_position_occupied ps (Z.of_nat (k mod s))
                  (Z.of_nat (k / s))) eqn:E; [| reflexivity].
      exfalso. destruct (Hocc _ _ E) as (j & Hj & Hm & Hd).
      apply Nat2Z.inj in Hm, Hd.
      pose proof (Nat.div_mod_eq j s). pose proof (Nat.div_mod_eq k s).
      rewrite <- Hm, <- Hd in H. lia. }
    unfold bind.
    rewrite place_particle_run; rewrite ?Ex, ?Ey; try assumption.
    apply IH; [lia |].
    intros cx cy Ho. rewrite occupied_app in Ho.
    apply orb_prop in Ho. destruct Ho as [Ho | Ho].
    + destruct (Hocc _ _ Ho) as (j & Hj & Hm & Hd).
      exists j. repeat split; auto with arith.
    + cbn [x y] in Ho. apply andb_prop in Ho. destruct Ho as [H1 H2].
      apply eqb_PInt_true in H1, H2. exists k. repeat split; auto.
Qed.

Lemma Chamber_init_can_complete (size : Z) (temp : pynum) (n : Z)
      (lg : list event) :
  0 < size -> n <= size * size ->
  exists c,
    Chamber_init size temp n (mkWorld (sweep_tape size (Z.to_nat n)) lg) =
    (Val c, mkWorld [] lg).
Proof.
  intros Hs Hn.
  destruct (sweep_places (Z.to_nat size) (Z.to_nat n) 0 [] [] lg)
    as [ps Hps].
  - lia.
  - nia.
  - intros cx cy H. discriminate.
  - rewrite Z2Nat.id, app_nil_r in Hps by lia.
    exists (mkChamber size size temp ps []).
    unfold Chamber_init, init_particles, bind, sweep_tape.
    now rewrite Hps.
Qed.

(** [Diffusion(size, temperature)] can complete, for every size up to
    32768: four fifths of the cells always fit. *)
Lemma Diffusion_init_can_complete (size : Z) (temp : pynum) (lg : list event) :
  0 < size <= 32768 ->
  exists c,
    Diffusion_init size temp
      (mkWorld (sweep_tape size (Z.to_nat (4 * size * size / 5))) lg) =
    (Val c, mkWorld [] lg).
Proof.
  intro Hs. unfold Diffusion_init.
  unfold bind at 1. rewrite (fill_count_is_floor size Hs). cbn [lift ret].
  assert (4 * size * size / 5 <= size * size) as Hfit.
  { apply Z.div_le_upper_bound; nia. }
  destruct (Chamber_init_can_complete size temp (4 * size * size / 5) lg
              ltac:(lia) Hfit) as [c Hc].
  unfold bind. rewrite Hc. eexists. reflexivity.
Qed.



(** ** Construction checks nothing *)

Lemma Chamber_init_exn (size : Z) (temp : pynum) (n : Z) (wd wd' : world)
      (e : exn) :
  Chamber_init size temp n wd = (Exc e, wd') ->
  e = ValueError /\ size <= 0 /\ 0 < n /\ wd' = wd.
Proof.
  unfold Chamber_init, init_particles, bind. intro H.
  destruct (Z.to_nat n) as [| k] eqn:En.
  { cbn in H. discriminate. }
  destruct (Z.le_gt_cases size 0) as [Hs | Hs].
  - rewrite place_particles_bad_size in H by assumption.
    inversion H; subst. repeat split; auto; lia.
  - pose proof (place_particles_spec (S k) [] size size wd
                  ltac:(lia) ltac:(lia) (Forall_nil _) (NoDup_nil _)) as Hp.
    destruct (place_particles (S k) [] size size wd) as [[ps | e1 |] w1];
      [discriminate | destruct Hp | discriminate].
Qed.




(** C8, as stated, fails: a particle count of zero returns a chamber
    (without particles); so does a temperature of zero or below; a size of
    zero with no particles returns a chamber too, and a negative size with
    particles raises ValueError, not ConfigurationError. *)
Lemma configuration_error_refuted :
  Chamber_init 10 (PInt 75) 0 (mkWorld [] []) =
    (Val (mkChamber 10 10 (PInt 75) [] []), mkWorld [] []) /\
  Chamber_init 2 (PInt (-5)) 1 (mkWorld [1; 0]%nat []) =
    (Val (mkChamber 2 2 (PInt (-5))
            [mkParticle (PInt 1) (PInt 0) "blue"] []), mkWorld [] []) /\
  Chamber_init 0 (PInt 75) 0 (mkWorld [] []) =
    (Val (mkChamber 0 0 (PInt 75) [] []), mkWorld [] []) /\
  Chamber_init (-1) (PInt 75) 2 (mkWorld [1; 0]%nat []) =
    (Exc ValueError, mkWorld [1; 0]%nat []).
Proof. repeat split. Qed.

(** C8, amended: construction validates nothing and raises no
    ConfigurationError.  A particle count of zero (or below) returns a
    chamber of the given size and temperature without particles.  The
    temperature is only stored: another temperature gives the same outcome
    with that temperature in the chamber.  The one exception construction
    can raise is ValueError, from [random.randint] on the empty range of a
    non-positive size when at least one particle is asked for; no chamber
    is returned then. *)
Theorem construction_validates_nothing
        (size : Z) (temp : pynum) (n : Z) (wd : world) :
  (n <= 0 ->
   Chamber_init size temp n wd = (Val (mkChamber size size temp [] []), wd)) /\
  (size <= 0 -> 0 < n ->
   Chamber_init size temp n wd = (Exc ValueError, wd)) /\
  (forall temp',
      Chamber_init size temp' n wd =
      match Chamber_init size temp n wd with
      | (Val c, wd') => (Val (with_temperature temp' c), wd')
      | (Exc e, wd') => (Exc e, wd')
      | (Starved, wd') => (Starved, wd')
      end) /\
  (forall e wd',
      Chamber_init size temp n wd = (Exc e, wd') ->
      e = ValueError /\ size <= 0 /\ 0 < n /\ wd' = wd).
Proof.
  split; [| split; [| split]].
  - intro Hn. unfold Chamber_init, init_particles.
    replace (Z.to_nat n) with 0%nat by lia. reflexivity.
  - intros Hs Hn. unfold Chamber_init, init_particles, bind.
    destruct (Z.to_nat n) as [| k] eqn:En; [lia |].
    now rewrite place_particles_bad_size.
  - intro temp'. unfold Chamber_init, bind.
    destruct (init_particles [] size size n wd) as [[ps | e |] wd'];
      reflexivity.
  - intros e wd'. apply Chamber_init_exn.
Qed.

Lemma construction_validates_nothing_witness :
  Chamber_init 10 (PInt 0) 0 (mkWorld [] []) =
    (Val (mkChamber 10 10 (PInt 0) [] []), mkWorld [] []) /\
  Chamber_init (-3) (PInt 75) 4 (mkWorld [] []) =
    (Exc ValueError, mkWorld [] []).
Proof.
  destruct (construction_validates_nothing 10 (PInt 0) 0 (mkWorld [] []))
    as (H1 & _).
  destruct (construction_validates_nothing (-3) (PInt 75) 4 (mkWorld [] []))
    as (_ & H2 & _).
  split; [apply H1; lia | apply H2; lia].
Defined.

(** The running maximum on two chambers, from 0 at cycle 0.  On the sample
    chamber, whose two particles sit alone in their cells, the total
    entropy is below zero (about -2.9e-9) and both fields stay as they
    were.  With an orange and a blue particle in the same cell the total
    (about 1.0) raises the maximum and records cycle 7. *)
Lemma max_entropy_never_decreases_witness :
  (exists total,
      total_entropy np_limit_sample log2_sample sum_sample sample_chamber =
        inr total /\
      PyNum.gtb total (PInt 0) = false /\
      fst (SystemEntropy_updated np_limit_sample log2_sample sum_sample
             (PInt 0) 0 sample_chamber 7 sample_world) =
        Val (SystemEntropy (PInt 0) 0)) /\
  (exists total,
      total_entropy np_limit_sample log2_sample sum_sample mixed_chamber =
        inr total /\
      PyNum.gtb total (PInt 0) = true /\
      fst (SystemEntropy_updated np_limit_sample log2_sample sum_sample
             (PInt 0) 0 mixed_chamber 7 sample_world) =
        Val (SystemEntropy total 7)).
Proof.
  split.
  - destruct (max_entropy_never_decreases np_limit_sample log2_sample
                sum_sample (PInt 0) 0 sample_chamber 7 sample_world)
      as [_ H].
    destruct (SystemEntropy_updated np_limit_sample log2_sample sum_sample
                (PInt 0) 0 sample_chamber 7 sample_world)
      as [[h' | e |] wd'] eqn:E.
    + destruct H as (total & mx' & cy' & Ht & -> & _ & _ & Hkeep & _).
      assert (PyNum.gtb total (PInt 0) = false) as Hg
          by (vm_compute in Ht; inversion Ht; reflexivity).
      destruct (Hkeep Hg) as [-> ->]. exists total. auto.
    + vm_compute in E. discriminate.
    + destruct H.
  - destruct (max_entropy_never_decreases np_limit_sample log2_sample
                sum_sample (PInt 0) 0 mixed_chamber 7 sample_world)
      as [_ H].
    destruct (SystemEntropy_updated np_limit_sample log2_sample sum_sample
                (PInt 0) 0 mixed_chamber 7 sample_world)
      as [[h' | e |] wd'] eqn:E.
    + destruct H as (total & mx' & cy' & Ht & -> & _ & Hup & _).
      assert (PyNum.gtb total (PInt 0) = true) as Hg
          by (vm_compute in Ht; inversion Ht; reflexivity).
      destruct (Hup Hg) as [-> ->]. exists total. auto.
    + vm_compute in E. discriminate.
    + destruct H.
Defined.

(** * Further properties of the code *)

(** ** Seeding: what the rejection loop does *)

Lemma place_particle_val_dims (ps ps' : list Particle) (w h : Z)
      (wd wd' : world) :
  place_particle ps w h wd = (Val ps', wd') -> 0 < w /\ 0 < h.
Proof.
  intro H. unfold place_particle in H.
  destruct (Z.le_gt_cases w 0) as [Hw | Hw].
  { unfold bind at 1 in H. rewrite randint_empty_range in H by assumption.
    discriminate. }
  split; [lia |].
  destruct (Z.le_gt_cases h 0) as [Hh | Hh]; [| lia].
  unfold bind at 1 in H. rewrite (randint_draw w wd) in H by lia.
  destruct (tape wd) as [| r1 t1]; [discriminate |].
  unfold bind at 1 in H. rewrite randint_empty_range in H by assumption.
  discriminate.
Qed.

(** A cell the scan reports free is the place of no particle of the
    list. *)
Lemma free_cell_no_same_place (ps : list Particle) (cx cy : Z) :
  is_position_occupied ps cx cy = false ->
  forall p q, In p ps -> x q = PInt cx -> y q = PInt cy ->
              same_place p q = false.
Proof.
  induction ps as [| p0 ps IH]; cbn [is_position_occupied]; intros H p q Hp;
    [destruct Hp |].
  destruct (PyNum.eqb (x p0) (PInt cx) && PyNum.eqb (y p0) (PInt cy)) eqn:E;
    [discriminate |].
  intros Hx Hy. destruct Hp as [<- | Hp].
  - unfold same_place. now rewrite Hx, Hy.
  - now apply (IH H p q).
Qed.

Lemma place_particles_appends (n : nat) (ps ps' : list Particle) (w h : Z)
      (wd wd' : world) :
  place_particles n ps w h wd = (Val ps', wd') ->
  exists new,
    ps' = ps ++ new /\
    List.length new = n /\
    Forall (seeded w h) new /\
    NoDup (map position new) /\
    (forall p q, In p ps -> In q new -> same_place p q = false) /\
    log wd' = log wd.
Proof.
  revert ps wd. induction n as [| n IH]; intros ps wd H.
  - cbn in H. inversion H; subst. exists []. rewrite app_nil_r.
    split; [reflexivity |]. split; [reflexivity |].
    split; [constructor |]. split; [constructor |].
    split; [intros p q _ [] | reflexivity].
  - cbn [place_particles] in H. run_val H.
    destruct (place_particle_val_dims _ _ _ _ _ _ Hrun) as [Hw Hh].
    pose proof (place_particle_spec ps w h wd Hw Hh) as Hp.
    rewrite Hrun in Hp.
    destruct Hp as (fx & fy & -> & Hfree & Hx & Hy & Hlog).
    apply IH in H.
    destruct H as (new & -> & Hlen & Hsd & Hnd & Hfresh & Hlog').
    set (p0 := mkParticle (PInt fx) (PInt fy)
                 (if fx <? w / 2 then "orange" else "blue")) in *.
    exists (p0 :: new). rewrite <- app_assoc. cbn [app].
    split; [reflexivity |]. split; [cbn; lia |].
    split; [constructor; [exists fx, fy; auto | assumption] |].
    split.
    { cbn [map]. constructor; [| assumption].
      intro Hin. apply in_map_iff in Hin. destruct Hin as (q & Hq & Hqin).
      assert (same_place p0 q = false) as Hne
          by (apply Hfresh; [apply in_or_app; right; left; reflexivity
                            | assumption]).
      unfold same_place, position in Hne, Hq.
      inversion Hq as [[Ex Ey]]. rewrite Ex, Ey in Hne. cbn [x y p0] in Hne.
      rewrite !eqb_PInt_refl in Hne. discriminate. }
    split; [| congruence].
    intros p q Hp [<- | Hq].
    + exact (free_cell_no_same_place ps fx fy Hfree p p0 Hp eq_refl eq_refl).
    + apply Hfresh; [apply in_or_app; now left | assumption].
Qed.

(** [init_particles] only appends: a returning call leaves the particles
    that were there in place and adds exactly [num_particles] new ones, each
    at integer coordinates inside the chamber and coloured by the midline
    rule, at cells that differ from one another; and no new particle is at
    the place of a particle that was there, by the comparison the code
    makes: against a particle at (1.0, 0.0) the cell (1, 0) is taken. *)
Theorem init_particles_appends
        (ps ps' : list Particle) (w h num_particles : Z) (wd wd' : world) :
  init_particles ps w h num_particles wd = (Val ps', wd') ->
  exists new,
    ps' = ps ++ new /\
    List.length new = Z.to_nat num_particles /\
    Forall (seeded w h) new /\
    NoDup (map position new) /\
    (forall p q, In p ps -> In q new -> same_place p q = false) /\
    log wd' = log wd.
Proof. apply place_particles_appends. Qed.

(** Seeding a 2 x 2 chamber that holds a particle at (1.0, 0.0): the
    proposal (1, 0) is rejected, and the two new particles go to (0, 0) and
    (1, 1). *)
Lemma init_particles_appends_witness :
  exists new,
    init_particles
      [mkParticle (PFloat (Z2F 1)) (PFloat (S754_zero false)) "blue"] 2 2 2
      (mkWorld [1; 0; 0; 0; 1; 1]%nat []) =
    (Val (mkParticle (PFloat (Z2F 1)) (PFloat (S754_zero false)) "blue"
            :: new),
     mkWorld [] []) /\
    map position new = [(PInt 0, PInt 0); (PInt 1, PInt 1)] /\
    (forall q, In q new ->
       same_place
         (mkParticle (PFloat (Z2F 1)) (PFloat (S754_zero false)) "blue") q =
       false).
Proof.
  destruct (init_particles
              [mkParticle (PFloat (Z2F 1)) (PFloat (S754_zero false)) "blue"]
              2 2 2 (mkWorld [1; 0; 0; 0; 1; 1]%nat [])) as [o wd'] eqn:E.
  assert (exists new,
             o = Val (mkParticle (PFloat (Z2F 1)) (PFloat (S754_zero false))
                        "blue" :: new) /\
             map position new = [(PInt 0, PInt 0); (PInt 1, PInt 1)] /\
             wd' = mkWorld [] []) as (new0 & -> & Hpos & ->)
      by (vm_compute in E; inversion E; subst; eexists;
          split; [reflexivity |]; split; reflexivity).
  destruct (init_particles_appends _ _ _ _ _ _ _ E)
    as (new & Happ & _ & _ & _ & Hfresh & _).
  cbn [app] in Happ. inversion Happ; subst new0.
  exists new. split; [reflexivity |]. split; [exact Hpos |].
  intros q Hq. apply Hfresh; [left; reflexivity | exact Hq].
Defined.

Lemma draws_of_length (l : list (nat * nat)) :
  List.length (draws_of l) = (2 * List.length l)%nat.
Proof.
  induction l as [| rr l IH]; [reflexivity |].
  cbn [draws_of flat_map app List.length]. fold (draws_of l). lia.
Qed.

Lemma resample_skips (ps : list Particle) (w h : Z)
      (rejected : list (nat * nat)) (r1 r2 : nat) (t : list nat)
      (lg : list event) (fuel : nat) (cx cy : Z) :
  0 < w -> 0 < h ->
  Forall (fun rr => is_position_occupied ps (fst (proposed w h rr))
                      (snd (proposed w h rr)) = true) rejected ->
  is_position_occupied ps (fst (proposed w h (r1, r2)))
    (snd (proposed w h (r1, r2))) = false ->
  is_position_occupied ps cx cy = true ->
  (List.length rejected < fuel)%nat ->
  resample fuel ps w h cx cy
    (mkWorld (draws_of rejected ++ r1 :: r2 :: t) lg) =
  (Val (proposed w h (r1, r2)), mkWorld t lg).
Proof.
  intros Hw Hh Hrej Hfree. revert fuel cx cy.
  induction Hrej as [| [q1 q2] rest Hq Hrest IH]; intros fuel cx cy Hocc Hfuel;
    (destruct fuel as [| fuel]; [cbn in Hfuel; lia |]);
    cbn [resample]; rewrite Hocc; unfold bind;
    rewrite (randint_draw w _ Hw); cbn [draws_of flat_map app tape log fst snd];
    rewrite (randint_draw h _ Hh); cbn [tape log].
  - unfold proposed in Hfree. cbn [fst snd] in Hfree.
    destruct fuel; cbn [resample]; rewrite Hfree; reflexivity.
  - apply IH; [exact Hq | cbn in Hfuel; lia].
Qed.

(** A turn of the seeding loop places the particle at the first proposed
    cell that is free: the proposals before it, all occupied, are drawn and
    rejected, and the draws after it are left on the tape. *)
Theorem place_particle_takes_first_free
        (ps : list Particle) (w h : Z) (rejected : list (nat * nat))
        (r1 r2 : nat) (t : list nat) (lg : list event) :
  0 < w -> 0 < h ->
  Forall (fun rr => is_position_occupied ps (fst (proposed w h rr))
                      (snd (proposed w h rr)) = true) rejected ->
  is_position_occupied ps (fst (proposed w h (r1, r2)))
    (snd (proposed w h (r1, r2))) = false ->
  place_particle ps w h (mkWorld (draws_of rejected ++ r1 :: r2 :: t) lg) =
  (Val (ps ++ [mkParticle (PInt (fst (proposed w h (r1, r2))))
                 (PInt (snd (proposed w h (r1, r2))))
                 (if fst (proposed w h (r1, r2)) <? w / 2
                  then "orange" else "blue")]),
   mkWorld t lg).
Proof.
  intros Hw Hh Hrej Hfree.
  destruct rejected as [| [q1 q2] rest].
  - cbn [draws_of flat_map app]. now apply place_particle_run.
  - inversion Hrej as [| ? ? Hq Hrest]; subst.
    unfold place_particle. unfold bind at 1.
    rewrite (randint_draw w _ Hw).
    cbn [draws_of flat_map app tape log fst snd].
    unfold bind at 1. rewrite (randint_draw h _ Hh). cbn [tape log].
    unfold bind at 1. cbn [tape].
    fold (draws_of rest).
    rewrite (resample_skips ps w h rest r1 r2 t lg); try assumption.
    + reflexivity.
    + rewrite length_app, draws_of_length. cbn [List.length]. lia.
Qed.

Lemma place_particle_takes_first_free_witness :
  place_particle [mkParticle (PInt 0) (PInt 0) "orange"] 2 2
    (mkWorld [0; 0; 2; 4; 1; 0; 7]%nat []) =
  (Val [mkParticle (PInt 0) (PInt 0) "orange";
        mkParticle (PInt 1) (PInt 0) "blue"], mkWorld [7%nat] []).
Proof.
  apply (place_particle_takes_first_free
           [mkParticle (PInt 0) (PInt 0) "orange"] 2 2
           [(0, 0); (2, 4)]%nat 1 0 [7%nat] []); try lia.
  - repeat constructor.
  - reflexivity.
Defined.

Lemma resample_starves (ps : list Particle) (w h : Z)
      (proposals : list (nat * nat)) (rest : list nat) (lg : list event)
      (fuel : nat) (cx cy : Z) :
  0 < w -> 0 < h ->
  Forall (fun rr => is_position_occupied ps (fst (proposed w h rr))
                      (snd (proposed w h rr)) = true) proposals ->
  (List.length rest <= 1)%nat ->
  is_position_occupied ps cx cy = true ->
  exists wd',
    resample fuel ps w h cx cy (mkWorld (draws_of proposals ++ rest) lg) =
    (Starved, wd').
Proof.
  intros Hw Hh Hocc Hrest. revert fuel cx cy.
  induction Hocc as [| [q1 q2] l Hq Hl IH]; intros fuel cx cy Hc;
    (destruct fuel as [| fuel]; cbn [resample]; rewrite Hc; [eauto |]);
    unfold bind; rewrite (randint_draw w _ Hw);
    cbn [draws_of flat_map app tape log fst snd].
  - destruct rest as [| r [| r' rest]]; [eauto | | cbn in Hrest; lia].
    rewrite (randint_draw h _ Hh). cbn [tape]. eauto.
  - rewrite (randint_draw h _ Hh). cbn [tape log].
    apply IH. exact Hq.
Qed.

(** A turn of the seeding loop never gives up: when every cell the draws
    propose is occupied, it is still looping when the draws run out; it
    raises nothing and places nothing. *)
Theorem place_particle_starves_on_occupied
        (ps : list Particle) (w h : Z) (proposals : list (nat * nat))
        (rest : list nat) (lg : list event) :
  0 < w -> 0 < h ->
  Forall (fun rr => is_position_occupied ps (fst (proposed w h rr))
                      (snd (proposed w h rr)) = true) proposals ->
  (List.length rest <= 1)%nat ->
  exists wd',
    place_particle ps w h (mkWorld (draws_of proposals ++ rest) lg) =
    (Starved, wd').
Proof.
  intros Hw Hh Hocc Hrest. unfold place_particle.
  destruct proposals as [| [q1 q2] l].
  - unfold bind at 1. rewrite (randint_draw w _ Hw).
    cbn [draws_of flat_map app tape log].
    destruct rest as [| r [| r' rest]]; [eauto | | cbn in Hrest; lia].
    unfold bind at 1. rewrite (randint_draw h _ Hh). cbn [tape]. eauto.
  - inversion Hocc as [| ? ? Hq Hl]; subst.
    unfold bind at 1. rewrite (randint_draw w _ Hw).
    cbn [draws_of flat_map app tape log fst snd].
    unfold bind at 1. rewrite (randint_draw h _ Hh). cbn [tape log].
    unfold bind at 1. cbn [tape]. fold (draws_of l).
    destruct (resample_starves ps w h l rest lg
                (List.length (draws_of l ++ rest))
                (Z.of_nat q1 mod w) (Z.of_nat q2 mod h) Hw Hh Hl Hrest Hq)
      as [wd' ->].
    eauto.
Qed.

Lemma place_particle_starves_on_occupied_witness :
  exists wd',
    place_particle [mkParticle (PInt 0) (PInt 0) "blue"] 1 1
      (mkWorld [3; 1; 4; 1; 5; 9; 2]%nat []) = (Starved, wd').
Proof.
  apply (place_particle_starves_on_occupied
           [mkParticle (PInt 0) (PInt 0) "blue"] 1 1
           [(3, 1); (4, 1); (5, 9)]%nat [2%nat] []); try lia.
  - repeat constructor.
  - cbn. lia.
Defined.

(** ** Ints and the floats they convert to *)

Lemma iter_xO_value (p k : positive) :
  Z.pos (Pos.iter xO p k) = Z.pos p * 2 ^ Z.pos k.
Proof.
  induction k as [| k IH] using Pos.peano_ind.
  - cbn. lia.
  - rewrite Pos.iter_succ, Pos2Z.inj_xO, IH, Pos2Z.inj_succ.
    rewrite Z.pow_succ_r by lia. lia.
Qed.

(** An int from 1 to 2^53 - 1 converts without rounding: the float is
    finite, positive, and its mantissa is the int shifted left. *)
Lemma Z2F_small_form (p : positive) :
  Z.pos p < 2 ^ 53 ->
  exists m e, Z2F (Z.pos p) = S754_finite false m e /\
              e <= 0 /\ Z.pos m = Z.pos p * 2 ^ (- e).
Proof.
  intro Hp.
  assert (Z.pos (digits2_pos p) <= 53) as Hd.
  { pose proof (digits2_pos_lower p) as Hl.
    destruct (Z.le_gt_cases (Z.pos (digits2_pos p)) 53) as [H | H];
      [exact H |].
    exfalso.
    assert (2 ^ 53 <= 2 ^ (Z.pos (digits2_pos p) - 1))
      by (apply Z.pow_le_mono_r; lia).
    lia. }
  unfold Z2F, binary_normalize, binary_round.
  set (d := digits2_pos p) in *.
  assert (fexp prec emax (Z.pos d + 0) = Z.pos d - 53) as Hf
      by (unfold fexp, emin, prec, emax; lia).
  rewrite Hf.
  assert (exists mz, shl_align p 0 (Z.pos d - 53) = (mz, Z.pos d - 53) /\
                     Z.pos (digits2_pos mz) = 53 /\
                     Z.pos mz = Z.pos p * 2 ^ (- (Z.pos d - 53)))
    as (mz & Hs & Hm & Hv).
  { unfold shl_align. destruct (Z.pos d - 53 - 0) as [| q | q] eqn:E.
    - exists p. split; [f_equal; lia |]. split; [fold d; lia |].
      replace (- (Z.pos d - 53)) with 0 by lia. lia.
    - lia.
    - eexists. split; [reflexivity |].
      split; [rewrite digits2_pos_iter; fold d; lia |].
      rewrite iter_xO_value. f_equal. f_equal. lia. }
  rewrite Hs. unfold binary_round_aux.
  assert (forall m, Z.pos (digits2_pos m) = 53 ->
            shr_fexp prec emax (Z.pos m) (Z.pos d - 53) loc_Exact =
            (Build_shr_record (Z.pos m) false false, Z.pos d - 53)) as Hshr.
  { intros m Hm'. unfold shr_fexp. cbn [Zdigits2 shr_record_of_loc].
    rewrite Hm'.
    replace (fexp prec emax (53 + (Z.pos d - 53)) - (Z.pos d - 53)) with 0
      by (unfold fexp, emin, prec, emax; lia).
    reflexivity. }
  rewrite (Hshr mz Hm). cbn [shr_m loc_of_shr_record round_nearest_even].
  rewrite (Hshr mz Hm). cbn [shr_m].
  replace (Z.pos d - 53 <=? emax - prec) with true
    by (symmetry; apply Z.leb_le; unfold emax, prec; lia).
  exists mz, (Z.pos d - 53). repeat split; [lia | assumption].
Qed.

(** [float(n)] for an int from 0 to 2^53 - 1: no exception, a zero or a
    finite float, with the value [n]. *)
Lemma float_of_int_small (n : Z) :
  0 <= n < 2 ^ 53 ->
  exists f, float_of_int n = inr f /\
            (f = S754_zero false \/ exists m e, f = S754_finite false m e) /\
            exists q, value (PFloat f) = Some q /\ (q == inject_Z n)%Q.
Proof.
  intros [Hlo Hhi]. destruct n as [| p | p]; [| | lia].
  - exists (S754_zero false). split; [reflexivity |]. split; [auto |].
    exists (inject_Z 0). split; reflexivity.
  - destruct (Z2F_small_form p Hhi) as (m & e & Hz & He & Hm).
    exists (S754_finite false m e). unfold float_of_int. rewrite Hz.
    split; [reflexivity |]. split; [eauto |].
    cbn [value cond_Zopp]. eexists. split; [reflexivity |].
    destruct (0 <=? e) eqn:E0.
    + apply Z.leb_le in E0. replace e with 0 in * by lia.
      cbn in Hm. unfold Qeq, inject_Z. cbn [Qnum Qden]. lia.
    + apply Z.leb_gt in E0.
      assert (0 < 2 ^ (- e)) as Hpos by (apply Z.pow_pos_nonneg; lia).
      unfold Qeq, inject_Z. cbn [Qnum Qden].
      rewrite Z2Pos.id by assumption. lia.
Qed.

(** ** Motion: what an update keeps *)

Lemma one_move_in_chamber (w h : Z) (v : pynum) (p p' : Particle) :
  one_move w h v p p' ->
  in_range (x p) w = true -> in_range (y p) h = true ->
  in_range (x p') w = true /\ in_range (y p') h = true.
Proof.
  intros (sx & sy & nx & ny & _ & _ & _ & _ & ->) Hx Hy.
  unfold moved. cbn [x y].
  destruct (in_range nx w) eqn:Ex, (in_range ny h) eqn:Ey; auto.
Qed.

Lemma all_moved_in_chamber (w h : Z) (temp : pynum) (ps ps' : list Particle) :
  all_moved w h temp ps ps' ->
  all_in_chamber w h ps -> all_in_chamber w h ps'.
Proof.
  intros [[-> ->] | (v & _ & HF)] Hall; [constructor |].
  unfold all_in_chamber in *.
  induction HF as [| p p' l l' Hp _ IH]; [constructor |].
  inversion Hall as [| ? ? [Hx Hy] Hrest]; subst.
  constructor; [eapply one_move_in_chamber; eauto | auto].
Qed.

(** [Chamber.update] keeps the particles inside: if every particle lies in
    [0, width) x [0, height) before an update that returns, every particle
    lies there after it. *)
Theorem update_keeps_particles_inside np_limit log2 np_sum
        (c c' : Chamber) (cycle : Z) (w w' : world) :
  all_in_chamber (width c) (height c) (particles c) ->
  update np_limit log2 np_sum c cycle w = (Val c', w') ->
  all_in_chamber (width c') (height c') (particles c').
Proof.
  intros Hall H. unfold update in H. run_val H.
  apply ret_val in H. destruct H as [<- _]. cbn [width height particles].
  apply move_all_val in Hrun.
  exact (all_moved_in_chamber _ _ _ _ _ Hrun Hall).
Qed.

Lemma update_keeps_particles_inside_witness :
  all_in_chamber 3 3 (particles sample_chamber) /\
  all_in_chamber 3 3 (particles sample_after).
Proof.
  assert (all_in_chamber 3 3 (particles sample_chamber)) as Hall
      by (repeat constructor).
  split; [exact Hall |].
  exact (update_keeps_particles_inside np_limit_sample log2_sample sum_sample
           sample_chamber sample_after 7 sample_world (snd sample_update)
           Hall sample_update_returns).
Defined.

(** ** An update returns *)

Lemma truediv_is_float (a b v : pynum) :
  truediv a b = inr v -> exists f, v = PFloat f.
Proof.
  unfold truediv. intro H.
  destruct a as [m | f], b as [n | g];
    repeat match type of H with
      | context [match ?t with _ => _ end] => destruct t
      end; inversion H; eauto.
Qed.

Lemma in_range_int (n hi : Z) : in_range (PInt n) hi = true -> 0 <= n < hi.
Proof.
  intro H. apply in_range_to_int in H. destruct H as (q & _ & Hi & Hb).
  cbn in Hi. inversion Hi. lia.
Qed.

(** Inside a chamber of width at most 2^53, the arithmetic of a proposal
    at a float velocity raises nothing. *)
Lemma proposal_defined (c : pynum) (hi step : Z) (fv : spec_float) :
  in_range c hi = true -> hi <= 2 ^ 53 -> In step [-1; 0; 1] ->
  exists n, proposal c step (PFloat fv) = inr n.
Proof.
  intros Hr Hhi Hs. unfold proposal.
  assert (exists d, PyNum.mul (PInt step) (PFloat fv) = inr (PFloat d))
    as [d ->].
  { destruct Hs as [<- | [<- | [<- | []]]]; cbn; eauto. }
  cbn [ebind]. destruct c as [n | f].
  - apply in_range_int in Hr.
    destruct (float_of_int_small n ltac:(lia)) as (fn & Hfn & _).
    unfold PyNum.add, float_binop, to_float. rewrite Hfn. eauto.
  - cbn. eauto.
Qed.

Lemma move_returns (p : Particle) (w h : Z) (fv : spec_float)
      (r1 r2 : nat) (t : list nat) (lg : list event) :
  in_range (x p) w = true -> in_range (y p) h = true ->
  w <= 2 ^ 53 -> h <= 2 ^ 53 ->
  exists p', move p w h (PFloat fv) (mkWorld (r1 :: r2 :: t) lg) =
             (Val p', mkWorld t lg).
Proof.
  intros Hx Hy Hw Hh. rewrite move_two_draws.
  destruct (proposal_defined (x p) w (step_of r1) fv Hx Hw
              (step_of_range r1)) as [nx ->].
  destruct (proposal_defined (y p) h (step_of r2) fv Hy Hh
              (step_of_range r2)) as [ny ->].
  eauto.
Qed.

(** The first loop of an update returns, given two draws per particle,
    and takes exactly those draws. *)
Lemma move_all_returns (ps : list Particle) (i : nat) (w h : Z)
      (temp v : pynum) (t : list nat) (lg : list event) :
  all_in_chamber w h ps -> w <= 2 ^ 53 -> h <= 2 ^ 53 ->
  truediv temp (PInt 100) = inr v ->
  (2 * List.length ps <= List.length t)%nat ->
  exists ps',
    move_all i ps w h temp (mkWorld t lg) =
    (Val ps',
     mkWorld (skipn (2 * List.length ps) t)
             (lg ++ map Moved (seq i (List.length ps)))).
Proof.
  intros Hall Hw Hh Hv. revert i t lg.
  induction Hall as [| p ps [Hx Hy] Hall IH]; intros i t lg Ht.
  - exists []. cbn. now rewrite app_nil_r.
  - cbn [List.length] in Ht.
    destruct t as [| r1 [| r2 t]]; try (cbn in Ht; lia).
    destruct (truediv_is_float _ _ _ Hv) as [fv ->].
    destruct (move_returns p w h fv r1 r2 t lg Hx Hy Hw Hh) as [p' Hm].
    destruct (IH (S i) t (lg ++ [Moved i])) as [ps' Hps];
      [cbn in Ht; lia |].
    exists (p' :: ps'). cbn [move_all]. unfold bind at 1. rewrite Hv.
    cbn [lift ret]. unfold bind at 1. rewrite Hm.
    unfold bind at 1. unfold emit at 1. cbn [tape log].
    unfold bind at 1. rewrite Hps. unfold ret.
    replace (2 * List.length (p :: ps))%nat
      with (S (S (2 * List.length ps))) by (cbn [List.length]; lia).
    cbn [skipn List.length seq map].
    rewrite <- app_assoc. reflexivity.
Qed.

(** A probe called on a chamber of non-negative dimensions whose arrays
    numpy can hold and whose particles are all inside returns, keeps its
    class and takes no draw. *)
Lemma updated_returns np_limit log2 np_sum (hk : Probe) (c : Chamber)
      (cycle : Z) (wd : world) :
  np_limit (width c) (height c) = None ->
  0 <= width c -> 0 <= height c ->
  all_in_chamber (width c) (height c) (particles c) ->
  exists hk' l,
    updated np_limit log2 np_sum hk c cycle wd =
      (Val hk', mkWorld (tape wd) (log wd ++ l)) /\
    same_class hk hk'.
Proof.
  intros Hl Hw Hh Hall.
  destruct (concentrations_in_chamber np_limit c cycle wd Hl Hw Hh Hall)
    as (oc & bc & Hc & _ & _ & _ & _ & Hu).
  destruct hk as [| | mx cy]; cbn [updated].
  - exists BaseProbe, []. rewrite app_nil_r. destruct wd.
    split; [reflexivity | exact I].
  - exists ConcentrationDensity. unfold bind. rewrite Hu.
    eexists. split; [reflexivity | exact I].
  - unfold concentrations in Hc. apply ebind_inr in Hc.
    destruct Hc as (d & Hd & _).
    unfold SystemEntropy_updated, total_entropy. rewrite Hd.
    cbn [ebind lift ret]. unfold bind, ret, emit. cbn [tape log].
    eexists _, _. split; [reflexivity | exact I].
Qed.

Lemma notify_all_returns np_limit log2 np_sum (c : Chamber) (cycle : Z)
      (hs : list Probe) (wd : world) :
  np_limit (width c) (height c) = None ->
  0 <= width c -> 0 <= height c ->
  all_in_chamber (width c) (height c) (particles c) ->
  exists hs' l,
    for_each (fun hk => emit (Notified hk cycle (particles c)) ;;;
                        updated np_limit log2 np_sum hk c cycle) hs wd =
      (Val hs', mkWorld (tape wd) (log wd ++ l)) /\
    Forall2 same_class hs hs'.
Proof.
  intros Hl Hw Hh Hall. revert wd.
  induction hs as [| hk hs IH]; intro wd.
  - exists [], []. rewrite app_nil_r. destruct wd.
    split; [reflexivity | constructor].
  - cbn [for_each]. unfold bind at 1. unfold bind at 1. unfold emit at 1.
    destruct (updated_returns np_limit log2 np_sum hk c cycle
                (mkWorld (tape wd)
                   (log wd ++ [Notified hk cycle (particles c)]))
                Hl Hw Hh Hall) as (hk' & l1 & -> & Hk).
    cbn [tape log].
    unfold bind at 1.
    destruct (IH (mkWorld (tape wd)
                    ((log wd ++ [Notified hk cycle (particles c)]) ++ l1)))
      as (hs' & l2 & -> & Hs).
    cbn [tape log]. unfold ret.
    exists (hk' :: hs'). eexists. split.
    + repeat rewrite <- app_assoc. reflexivity.
    + constructor; assumption.
Qed.

Lemma update_runs np_limit log2 np_sum (c : Chamber) (cycle : Z)
      (t : list nat) (lg : list event) (v : pynum) :
  np_limit (width c) (height c) = None ->
  0 <= width c <= 2 ^ 53 -> 0 <= height c <= 2 ^ 53 ->
  all_in_chamber (width c) (height c) (particles c) ->
  truediv (temperature c) (PInt 100) = inr v ->
  (2 * List.length (particles c) <= List.length t)%nat ->
  exists c' after,
    update np_limit log2 np_sum c cycle (mkWorld t lg) =
      (Val c',
       mkWorld (skipn (2 * List.length (particles c)) t)
         (lg ++ map Moved (seq 0 (List.length (particles c))) ++ after)) /\
    width c' = width c /\ height c' = height c /\
    temperature c' = temperature c /\
    all_moved (width c) (height c) (temperature c)
              (particles c) (particles c') /\
    Forall2 same_class (hooks c) (hooks c').
Proof.
  intros Hl Hw Hh Hall Hv Ht.
  destruct (move_all_returns (particles c) 0 (width c) (height c)
              (temperature c) v t lg Hall ltac:(lia) ltac:(lia) Hv Ht)
    as [ps Hps].
  pose proof (move_all_val _ _ _ _ _ _ _ _ Hps) as Hmoved.
  fold (all_moved (width c) (height c) (temperature c) (particles c) ps)
    in Hmoved.
  pose proof (all_moved_in_chamber _ _ _ _ _ Hmoved Hall) as Hall'.
  set (mc := mkChamber (width c) (height c) (temperature c) ps (hooks c)).
  destruct (notify_all_returns np_limit log2 np_sum mc cycle (hooks c)
              (mkWorld (skipn (2 * List.length (particles c)) t)
                 (lg ++ map Moved (seq 0 (List.length (particles c)))))
              Hl ltac:(cbn; lia) ltac:(cbn; lia) Hall')
    as (hs & l & Hn & Hs).
  exists (mkChamber (width c) (height c) (temperature c) ps hs), l.
  unfold update. unfold bind at 1. rewrite Hps.
  unfold bind at 1. unfold notify_all. fold mc. cbn [hooks].
  change (hooks mc) with (hooks c). rewrite Hn. cbn [tape log ret].
  unfold ret. rewrite <- app_assoc.
  repeat split; assumption.
Qed.

(** [Chamber.update] returns: in a chamber with dimensions from 0 to 2^53
    for which numpy can hold the probes' arrays, whose particles are all
    inside, with a temperature that can be divided by 100 and two draws
    per particle on the tape, an update raises nothing; it takes exactly
    two draws per particle (the probes take none), logs the moves before
    anything else, and leaves every hook of the class it had. *)
Theorem update_returns np_limit log2 np_sum (c : Chamber) (cycle : Z)
        (t : list nat) (lg : list event) (v : pynum) :
  np_limit (width c) (height c) = None ->
  0 <= width c <= 2 ^ 53 -> 0 <= height c <= 2 ^ 53 ->
  all_in_chamber (width c) (height c) (particles c) ->
  truediv (temperature c) (PInt 100) = inr v ->
  (2 * List.length (particles c) <= List.length t)%nat ->
  exists c' after,
    update np_limit log2 np_sum c cycle (mkWorld t lg) =
      (Val c',
       mkWorld (skipn (2 * List.length (particles c)) t)
         (lg ++ map Moved (seq 0 (List.length (particles c))) ++ after)) /\
    Forall2 same_class (hooks c) (hooks c').
Proof.
  intros Hl Hw Hh Hall Hv Ht.
  destruct (update_runs np_limit log2 np_sum c cycle t lg v Hl Hw Hh Hall
              Hv Ht)
    as (c' & after & Hu & _ & _ & _ & _ & Hs).
  eauto.
Qed.

Lemma update_returns_witness :
  exists c' after,
    update np_limit_sample log2_sample sum_sample sample_chamber 7
      (mkWorld [2; 1; 0; 2; 5]%nat []) =
      (Val c', mkWorld [5%nat] ([Moved 0; Moved 1] ++ after)) /\
    Forall2 same_class (hooks sample_chamber) (hooks c').
Proof.
  assert (all_in_chamber 3 3 (particles sample_chamber)) as Hall
      by (repeat constructor).
  assert (truediv (temperature sample_chamber) (PInt 100) =
          inr (PFloat (S754_finite false 6755399441055744 (-53)))) as Hv
      by (vm_compute; reflexivity).
  destruct (update_returns np_limit_sample log2_sample sum_sample
              sample_chamber 7 [2; 1; 0; 2; 5]%nat [] _ eq_refl
              ltac:(cbn; lia) ltac:(cbn; lia) Hall Hv ltac:(cbn; lia))
    as (c' & after & Hu & Hs).
  exists c', after. split; [exact Hu | exact Hs].
Defined.

Lemma same_class_trans (a b c : Probe) :
  same_class a b -> same_class b c -> same_class a c.
Proof. destruct a, b, c; cbn; auto; intros []. Qed.

Lemma Forall2_same_class_trans (l1 l2 l3 : list Probe) :
  Forall2 same_class l1 l2 -> Forall2 same_class l2 l3 ->
  Forall2 same_class l1 l3.
Proof.
  intro H. revert l3. induction H as [| a b l1 l2 Hab _ IH]; intros l3 H23;
    inversion H23; subst; constructor; eauto using same_class_trans.
Qed.

Lemma Forall2_same_class_refl (l : list Probe) : Forall2 same_class l l.
Proof. induction l as [| a l IH]; constructor; [destruct a; exact I | assumption]. Qed.

(** The animation never fails: for every sequence of frames, in a chamber
    with dimensions from 0 to 2^53 for which numpy can hold the probes'
    arrays, whose particles start inside, with a temperature that can be
    divided by 100 and two draws per particle and frame on the tape, every
    update returns; at the end the chamber has the
    same dimensions and temperature, the same number of particles with the
    same colours in the same order, all of them inside, and the same hooks
    by class; exactly two draws per particle and frame were taken. *)
Theorem animate_returns np_limit log2 np_sum (frames : list Z) (c : Chamber)
        (t : list nat) (lg : list event) (v : pynum) :
  np_limit (width c) (height c) = None ->
  0 <= width c <= 2 ^ 53 -> 0 <= height c <= 2 ^ 53 ->
  all_in_chamber (width c) (height c) (particles c) ->
  truediv (temperature c) (PInt 100) = inr v ->
  (List.length frames * (2 * List.length (particles c)) <=
   List.length t)%nat ->
  exists c' lg',
    animate np_limit log2 np_sum c frames (mkWorld t lg) =
      (Val c',
       mkWorld (skipn (List.length frames * (2 * List.length (particles c))) t)
               lg') /\
    width c' = width c /\ height c' = height c /\
    temperature c' = temperature c /\
    List.length (particles c') = List.length (particles c) /\
    map color (particles c') = map color (particles c) /\
    all_in_chamber (width c') (height c') (particles c') /\
    Forall2 same_class (hooks c) (hooks c').
Proof.
  revert c t lg. induction frames as [| frame frames IH];
    intros c t lg Hl Hw Hh Hall Hv Ht.
  - exists c, lg. cbn. repeat split; auto using Forall2_same_class_refl.
  - cbn [List.length] in Ht.
    destruct (update_runs np_limit log2 np_sum c frame t lg v Hl Hw Hh Hall
                Hv ltac:(nia))
      as (c1 & after & Hu & Ew & Eh & Et & Hmoved & Hs).
    destruct (all_moved_shape _ _ _ _ _ Hmoved) as [Hlen Hcol].
    pose proof (all_moved_in_chamber _ _ _ _ _ Hmoved Hall) as Hall1.
    destruct (IH c1 (skipn (2 * List.length (particles c)) t)
                (lg ++ map Moved (seq 0 (List.length (particles c))) ++ after))
      as (c' & lg' & Ha & Ew' & Eh' & Et' & Hlen' & Hcol' & Hall' & Hs').
    + rewrite Ew, Eh. exact Hl.
    + rewrite Ew. exact Hw.
    + rewrite Eh. exact Hh.
    + rewrite Ew, Eh. exact Hall1.
    + rewrite Et. exact Hv.
    + rewrite Hlen, length_skipn. nia.
    + exists c', lg'. cbn [animate]. unfold bind at 1.
      unfold Diffusion_update. unfold bind at 1. rewrite Hu.
      unfold ret at 1. cbn [fst]. rewrite Ha.
      rewrite skipn_skipn, Hlen.
      replace (List.length frames * (2 * List.length (particles c)) +
               2 * List.length (particles c))%nat
        with (List.length (frame :: frames) *
              (2 * List.length (particles c)))%nat
        by (cbn [List.length]; lia).
      split; [reflexivity |].
      repeat split; try congruence.
      eapply Forall2_same_class_trans; eauto.
Qed.

Lemma animate_returns_witness :
  exists c' lg',
    animate np_limit_sample log2_sample sum_sample sample_chamber [0; 1; 2]
      (mkWorld [2; 1; 0; 2; 1; 1; 0; 0; 2; 2; 1; 0; 4]%nat []) =
      (Val c', mkWorld [4%nat] lg') /\
    List.length (particles c') = 2%nat /\
    all_in_chamber 3 3 (particles c').
Proof.
  assert (all_in_chamber 3 3 (particles sample_chamber)) as Hall
      by (repeat constructor).
  assert (truediv (temperature sample_chamber) (PInt 100) =
          inr (PFloat (S754_finite false 6755399441055744 (-53)))) as Hv
      by (vm_compute; reflexivity).
  destruct (animate_returns np_limit_sample log2_sample sum_sample
              [0; 1; 2] sample_chamber
              [2; 1; 0; 2; 1; 1; 0; 0; 2; 2; 1; 0; 4]%nat [] _ eq_refl
              ltac:(cbn; lia) ltac:(cbn; lia) Hall Hv ltac:(cbn; lia))
    as (c' & lg' & Ha & Ew & Eh & _ & Hlen & _ & Hin & _).
  exists c', lg'. split; [exact Ha |]. split; [exact Hlen |].
  rewrite Ew, Eh in Hin. exact Hin.
Defined.

(** ** Temperature zero: nothing moves *)

Lemma same_value_refl_in_range (a : pynum) (hi : Z) :
  in_range a hi = true -> same_value a a.
Proof.
  intro H. apply in_range_to_int in H. destruct H as (q & Hq & _).
  exists q, q. split; [assumption |]. split; [assumption | reflexivity].
Qed.

Lemma in_range_float_shape (f : spec_float) (hi : Z) :
  in_range (PFloat f) hi = true ->
  (exists s, f = S754_zero s) \/ (exists s m e, f = S754_finite s m e).
Proof.
  intro H. apply in_range_to_int in H. destruct H as (q & Hq & _).
  destruct f; cbn in Hq; try discriminate; eauto.
Qed.

(** Adding a zero to a coordinate inside the chamber gives a number with
    the same value. *)
Lemma add_zero_same_value (c d : pynum) (hi : Z) :
  in_range c hi = true -> hi <= 2 ^ 53 ->
  zero_velocity d ->
  exists c', PyNum.add c d = inr c' /\ same_value c c'.
Proof.
  intros Hr Hhi Hd.
  assert (forall f s,
             (exists s', f = S754_zero s') \/
             (exists s' m e, f = S754_finite s' m e) ->
             same_value (PFloat f) (PFloat (fadd f (S754_zero s)))) as Hf.
  { intros f s [[s' ->] | (s' & m & e & ->)].
    - exists (inject_Z 0), (inject_Z 0).
      destruct s, s'; repeat split; reflexivity.
    - cbn [fadd SFadd]. eexists _, _. repeat split; reflexivity. }
  destruct c as [n | f].
  - pose proof (in_range_int n hi Hr) as Hn.
    destruct Hd as [-> | [s ->]].
    + exists (PInt (n + 0)). split; [reflexivity |].
      exists (inject_Z n), (inject_Z (n + 0)). rewrite Z.add_0_r.
      repeat split; reflexivity.
    + destruct (float_of_int_small n ltac:(lia))
        as (fn & Hfn & Hshape & q & Hq & Hqn).
      exists (PFloat (fadd fn (S754_zero s))).
      unfold PyNum.add, float_binop, to_float. rewrite Hfn.
      split; [reflexivity |].
      assert ((exists s', fn = S754_zero s') \/
              (exists s' m e, fn = S754_finite s' m e)) as Hsh
          by (destruct Hshape as [-> | (m & e & ->)]; eauto).
      destruct (Hf fn s Hsh) as (qa & qb & Ha & Hb & Hab).
      exists (inject_Z n), qb. split; [reflexivity |]. split; [assumption |].
      rewrite Hq in Ha. inversion Ha; subst qa.
      rewrite <- Hab. symmetry. exact Hqn.
  - pose proof (in_range_float_shape f hi Hr) as Hsh.
    destruct Hd as [-> | [s ->]].
    + exists (PFloat (fadd f (S754_zero false))). split; [reflexivity |].
      now apply Hf.
    + exists (PFloat (fadd f (S754_zero s))). split; [reflexivity |].
      now apply Hf.
Qed.

Lemma mul_step_zero (step : Z) (v : pynum) :
  In step [-1; 0; 1] -> zero_velocity v ->
  exists d, PyNum.mul (PInt step) v = inr d /\ zero_velocity d.
Proof.
  intros Hs [-> | [s ->]].
  - exists (PInt 0). cbn. rewrite Z.mul_0_r. split; [reflexivity | now left].
  - destruct Hs as [<- | [<- | [<- | []]]]; destruct s;
      eexists; (split; [vm_compute; reflexivity | right; eexists; reflexivity]).
Qed.

Lemma proposal_zero_velocity (c : pynum) (hi step : Z) (v n : pynum) :
  in_range c hi = true -> hi <= 2 ^ 53 -> In step [-1; 0; 1] ->
  zero_velocity v ->
  proposal c step v = inr n -> same_value c n.
Proof.
  intros Hr Hhi Hs Hv H. unfold proposal in H.
  destruct (mul_step_zero step v Hs Hv) as (d & Hd & Hz).
  rewrite Hd in H. cbn [ebind] in H.
  destruct (add_zero_same_value c d hi Hr Hhi Hz) as (c' & Hc & Hsame).
  rewrite Hc in H. inversion H; subst. exact Hsame.
Qed.

Lemma one_move_zero_velocity (w h : Z) (v : pynum) (p p' : Particle) :
  zero_velocity v -> w <= 2 ^ 53 -> h <= 2 ^ 53 ->
  in_range (x p) w = true -> in_range (y p) h = true ->
  one_move w h v p p' -> stays_put p p'.
Proof.
  intros Hv Hw Hh Hx Hy (sx & sy & nx & ny & Hsx & Hsy & Px & Py & ->).
  unfold stays_put, moved. cbn [x y color].
  split; [| split; [| reflexivity]].
  - destruct (in_range nx w);
      [exact (proposal_zero_velocity _ w sx v nx Hx Hw Hsx Hv Px)
      | exact (same_value_refl_in_range _ w Hx)].
  - destruct (in_range ny h);
      [exact (proposal_zero_velocity _ h sy v ny Hy Hh Hsy Hv Py)
      | exact (same_value_refl_in_range _ h Hy)].
Qed.

Lemma truediv_zero (temp v : pynum) :
  zero_velocity temp -> truediv temp (PInt 100) = inr v -> zero_velocity v.
Proof.
  intros [-> | [s ->]] H.
  - vm_compute in H. inversion H. right. eauto.
  - destruct s; vm_compute in H; inversion H; right; eauto.
Qed.

Lemma same_value_to_int (a b : pynum) :
  same_value a b -> to_int b = to_int a.
Proof.
  intros (qa & qb & Ha & Hb & Hab).
  rewrite (to_int_trunc a qa Ha), (to_int_trunc b qb Hb).
  f_equal. unfold Qtrunc.
  assert (Qle_bool (inject_Z 0) qb = Qle_bool (inject_Z 0) qa) as ->.
  { destruct (Qle_bool (inject_Z 0) qa) eqn:E.
    - apply Qle_bool_iff. apply Qle_bool_iff in E. now rewrite <- Hab.
    - destruct (Qle_bool (inject_Z 0) qb) eqn:E'; [| reflexivity].
      apply Qle_bool_iff in E'. rewrite <- Hab in E'.
      apply Qle_bool_iff in E'. congruence. }
  destruct (Qle_bool (inject_Z 0) qa).
  - now rewrite Hab.
  - now rewrite Hab.
Qed.

Lemma stays_put_densities (ps ps' : list Particle) (w h : Z)
      (orange blue : grid) :
  Forall2 stays_put ps ps' ->
  fill_densities ps' w h orange blue = fill_densities ps w h orange blue.
Proof.
  intro H. revert orange blue.
  induction H as [| p p' l l' (Hx & Hy & Hc) _ IH]; intros orange blue;
    [reflexivity |].
  cbn [fill_densities]. rewrite Hc.
  assert (forall g, bump_at g w h p' = bump_at g w h p) as Hb.
  { intro g. unfold bump_at.
    now rewrite (same_value_to_int _ _ Hx), (same_value_to_int _ _ Hy). }
  rewrite !Hb.
  destruct (String.eqb (color p) "orange").
  - destruct (bump_at orange w h p); cbn [ebind]; [reflexivity | apply IH].
  - destruct (String.eqb (color p) "blue").
    + destruct (bump_at blue w h p); cbn [ebind]; [reflexivity | apply IH].
    + apply IH.
Qed.

Lemma all_moved_zero (w h : Z) (temp : pynum) (ps ps' : list Particle) :
  zero_velocity temp -> w <= 2 ^ 53 -> h <= 2 ^ 53 ->
  all_in_chamber w h ps ->
  all_moved w h temp ps ps' -> Forall2 stays_put ps ps'.
Proof.
  intros Hz Hw Hh Hall [[-> ->] | (v & Hv & HF)]; [constructor |].
  pose proof (truediv_zero _ _ Hz Hv) as Hzv.
  unfold all_in_chamber in Hall.
  induction HF as [| p p' l l' Hp _ IH]; [constructor |].
  inversion Hall as [| ? ? [Hx Hy] Hrest]; subst.
  constructor; [| now apply IH].
  exact (one_move_zero_velocity w h v p p' Hzv Hw Hh Hx Hy Hp).
Qed.

(** At temperature zero nothing moves: after an update of a chamber (of
    dimensions at most 2^53, particles inside) whose temperature is 0, every
    particle has coordinates of the same value as before and its colour,
    and the concentration series are the same as before the update. *)
Theorem update_at_zero_temperature np_limit log2 np_sum
        (c c' : Chamber) (cycle : Z) (w w' : world) :
  zero_velocity (temperature c) ->
  width c <= 2 ^ 53 -> height c <= 2 ^ 53 ->
  all_in_chamber (width c) (height c) (particles c) ->
  update np_limit log2 np_sum c cycle w = (Val c', w') ->
  Forall2 stays_put (particles c) (particles c') /\
  concentrations np_limit c' = concentrations np_limit c.
Proof.
  intros Hz Hw Hh Hall H.
  assert (Forall2 stays_put (particles c) (particles c') /\
          width c' = width c /\ height c' = height c) as (Hs & Ew & Eh).
  { unfold update in H. run_val H.
    apply ret_val in H. destruct H as [<- _].
    cbn [particles width height]. split; [| auto].
    apply move_all_val in Hrun.
    exact (all_moved_zero _ _ _ _ _ Hz Hw Hh Hall Hrun). }
  split; [exact Hs |].
  unfold concentrations, densities. rewrite Ew, Eh.
  destruct (zeros np_limit (width c) (height c)) as [e | z]; cbn [ebind];
    [reflexivity |].
  now rewrite (stays_put_densities _ _ _ _ z z Hs).
Qed.

Lemma update_at_zero_temperature_witness :
  exists c' w',
    update np_limit_sample log2_sample sum_sample
      (with_temperature (PInt 0) sample_chamber) 7 sample_world =
      (Val c', w') /\
    Forall2 stays_put (particles sample_chamber) (particles c') /\
    concentrations np_limit_sample c' = inr ([1; 0; 0], [0; 0; 1]).
Proof.
  destruct (update np_limit_sample log2_sample sum_sample
              (with_temperature (PInt 0) sample_chamber) 7 sample_world)
    as [o w'] eqn:E.
  assert (exists c', o = Val c') as [c' ->]
      by (vm_compute in E; inversion E; subst; eauto).
  destruct (update_at_zero_temperature np_limit_sample log2_sample sum_sample
              (with_temperature (PInt 0) sample_chamber) c' 7 sample_world w'
              (or_introl eq_refl) ltac:(cbn; lia) ltac:(cbn; lia)
              ltac:(repeat constructor) E) as [Hs Hc].
  exists c', w'. split; [reflexivity |]. split; [exact Hs |].
  rewrite Hc. reflexivity.
Defined.

(** ** What the occupancy arrays hold *)

Lemma nth_error_update_nth {A : Type} (f : A -> A) (n k : nat) (l : list A) :
  nth_error (update_nth f n l) k =
  if (k =? n)%nat then option_map f (nth_error l k) else nth_error l k.
Proof.
  revert n k. induction l as [| a l IH]; intros [| n] [| k]; cbn;
    try reflexivity.
  - now destruct (k =? n)%nat.
  - apply IH.
Qed.

Lemma cell_bump (g : grid) (i' j' i j : nat) :
  cell (bump g i' j') i j =
  option_map (fun n => n + (if ((i =? i') && (j =? j'))%nat then 1 else 0))
             (cell g i j).
Proof.
  unfold cell, bump. rewrite nth_error_update_nth.
  destruct (i =? i')%nat; cbn [andb].
  - destruct (nth_error g i) as [row |]; cbn [option_map]; [| reflexivity].
    rewrite nth_error_update_nth.
    destruct (j =? j')%nat; destruct (nth_error row j); cbn; f_equal; lia.
  - destruct (nth_error g i) as [row |]; [| reflexivity].
    destruct (nth_error row j); cbn; f_equal; lia.
Qed.

(** The index of a particle inside the chamber. *)
Lemma bump_at_index (w h : Z) (p : Particle) :
  in_range (x p) w = true -> in_range (y p) h = true ->
  exists i j,
    to_int (x p) = inr i /\ to_int (y p) = inr j /\
    0 <= i < w /\ 0 <= j < h /\
    forall g, bump_at g w h p = inr (bump g (Z.to_nat i) (Z.to_nat j)).
Proof.
  intros Hx Hy.
  apply in_range_to_int in Hx. destruct Hx as (qx & _ & Ix & Bx).
  apply in_range_to_int in Hy. destruct Hy as (qy & _ & Iy & By).
  exists (Qfloor qx), (Qfloor qy). do 4 (split; [assumption |]).
  intro g. unfold bump_at. rewrite Ix, Iy. cbn [ebind].
  now rewrite !norm_index_nonneg.
Qed.

Lemma cell_count_cons (col : string) (i j : Z) (p : Particle)
      (ps : list Particle) :
  cell_count col i j (p :: ps) =
  (if String.eqb (color p) col && int_is (x p) i && int_is (y p) j
   then 1 else 0) + cell_count col i j ps.
Proof.
  unfold cell_count. cbn [filter].
  destruct (String.eqb (color p) col && int_is (x p) i && int_is (y p) j);
    cbn [List.length]; lia.
Qed.

Lemma column_count_cons (col : string) (i : Z) (p : Particle)
      (ps : list Particle) :
  column_count col i (p :: ps) =
  (if String.eqb (color p) col && int_is (x p) i then 1 else 0) +
  column_count col i ps.
Proof.
  unfold column_count. cbn [filter].
  destruct (String.eqb (color p) col && int_is (x p) i);
    cbn [List.length]; lia.
Qed.

Lemma option_map_add (o : option Z) (a b : Z) :
  option_map (fun n => n + b) (option_map (fun n => n + a) o) =
  option_map (fun n => n + (a + b)) o.
Proof. destruct o; cbn; f_equal; lia. Qed.

Lemma to_nat_eqb (a b : Z) :
  0 <= a -> 0 <= b -> (Z.to_nat a =? Z.to_nat b)%nat = (a =? b).
Proof.
  intros Ha Hb. destruct (Z.eqb_spec a b) as [-> | Hne].
  - apply Nat.eqb_refl.
  - apply Nat.eqb_neq. lia.
Qed.

(** The loop over particles inside the chamber adds to each cell the
    number of particles of the array's colour that [int] puts there. *)
Lemma fill_densities_cells (ps : list Particle) (w h : Z) :
  all_in_chamber w h ps ->
  forall orange blue,
  exists orange' blue',
    fill_densities ps w h orange blue = inr (orange', blue') /\
    forall i j, 0 <= i -> 0 <= j ->
      cell orange' (Z.to_nat i) (Z.to_nat j) =
        option_map (fun n => n + cell_count "orange" i j ps)
                   (cell orange (Z.to_nat i) (Z.to_nat j)) /\
      cell blue' (Z.to_nat i) (Z.to_nat j) =
        option_map (fun n => n + cell_count "blue" i j ps)
                   (cell blue (Z.to_nat i) (Z.to_nat j)).
Proof.
  induction 1 as [| p ps [Hx Hy] Hall IH]; intros orange blue.
  - exists orange, blue. split; [reflexivity |].
    intros i j _ _. unfold cell_count. cbn [filter List.length Z.of_nat].
    split.
    + destruct (cell orange _ _); cbn; f_equal; lia.
    + destruct (cell blue _ _); cbn; f_equal; lia.
  - destruct (bump_at_index w h p Hx Hy)
      as (pi & pj & Ix & Iy & Bx & By & Hb).
    cbn [fill_densities].
    assert (forall i j, 0 <= i -> 0 <= j ->
              ((Z.to_nat i =? Z.to_nat pi) && (Z.to_nat j =? Z.to_nat pj))%nat
              = int_is (x p) i && int_is (y p) j) as Hidx.
    { intros i j Hi Hj. unfold int_is. rewrite Ix, Iy.
      rewrite !to_nat_eqb by lia.
      now rewrite (Z.eqb_sym pi i), (Z.eqb_sym pj j). }
    destruct (String.eqb (color p) "orange") eqn:Eo.
    + assert (String.eqb (color p) "blue" = false) as Eb.
      { pose proof Eo as E. apply String.eqb_eq in E. now rewrite E. }
      rewrite Hb. cbn [ebind].
      destruct (IH (bump orange (Z.to_nat pi) (Z.to_nat pj)) blue)
        as (o' & b' & -> & Hcells).
      exists o', b'. split; [reflexivity |].
      intros i j Hi Hj. destruct (Hcells i j Hi Hj) as [Ho Hbl].
      rewrite Ho, Hbl, cell_bump, option_map_add, !cell_count_cons.
      rewrite Hidx by assumption. rewrite Eo, Eb. cbn [andb].
      split; [reflexivity |].
      destruct (cell blue (Z.to_nat i) (Z.to_nat j)); cbn [option_map];
        f_equal; lia.
    + destruct (String.eqb (color p) "blue") eqn:Eb.
      * rewrite Hb. cbn [ebind].
        destruct (IH orange (bump blue (Z.to_nat pi) (Z.to_nat pj)))
          as (o' & b' & -> & Hcells).
        exists o', b'. split; [reflexivity |].
        intros i j Hi Hj. destruct (Hcells i j Hi Hj) as [Ho Hbl].
        rewrite Ho, Hbl, cell_bump, option_map_add, !cell_count_cons.
        rewrite Hidx by assumption. rewrite Eo, Eb. cbn [andb].
        split; [| reflexivity].
        destruct (cell orange (Z.to_nat i) (Z.to_nat j)); cbn [option_map];
          f_equal; lia.
      * destruct (IH orange blue) as (o' & b' & -> & Hcells).
        exists o', b'. split; [reflexivity |].
        intros i j Hi Hj. destruct (Hcells i j Hi Hj) as [Ho Hbl].
        rewrite Ho, Hbl, !cell_count_cons, Eo, Eb. cbn [andb].
        split.
        -- destruct (cell orange (Z.to_nat i) (Z.to_nat j)); cbn [option_map];
             f_equal; lia.
        -- destruct (cell blue (Z.to_nat i) (Z.to_nat j)); cbn [option_map];
             f_equal; lia.
Qed.

Lemma cell_zeros np_limit (w h : Z) (i j : Z) (g : grid) :
  zeros np_limit w h = inr g -> 0 <= i < w -> 0 <= j < h ->
  cell g (Z.to_nat i) (Z.to_nat j) = Some 0.
Proof.
  unfold zeros. destruct (np_limit w h); [discriminate |].
  destruct ((w <? 0) || (h <? 0)); [discriminate |].
  intros H Hi Hj. inversion H; subst. unfold cell.
  rewrite nth_error_repeat by lia.
  apply nth_error_repeat. lia.
Qed.

(** The occupancy arrays count particles cell by cell: in a chamber of
    non-negative dimensions for which numpy can hold the arrays and whose
    particles are all inside, the arrays are built without exception, and
    the cell [(i, j)] of the orange (blue) array holds the number of orange
    (blue) particles with [int(x) = i] and [int(y) = j]; particles that
    overlap are each counted. *)
Theorem densities_count_cells np_limit (c : Chamber) :
  np_limit (width c) (height c) = None ->
  0 <= width c -> 0 <= height c ->
  all_in_chamber (width c) (height c) (particles c) ->
  exists orange blue,
    densities np_limit c = inr (orange, blue) /\
    forall i j, 0 <= i < width c -> 0 <= j < height c ->
      cell orange (Z.to_nat i) (Z.to_nat j) =
        Some (cell_count "orange" i j (particles c)) /\
      cell blue (Z.to_nat i) (Z.to_nat j) =
        Some (cell_count "blue" i j (particles c)).
Proof.
  intros Hl Hw Hh Hall. unfold densities.
  destruct (zeros_shape np_limit (width c) (height c) Hl Hw Hh)
    as (z & Hz & _).
  rewrite Hz. cbn [ebind].
  destruct (fill_densities_cells _ _ _ Hall z z) as (o & b & -> & Hcells).
  exists o, b. split; [reflexivity |].
  intros i j Hi Hj. destruct (Hcells i j ltac:(lia) ltac:(lia)) as [Ho Hb].
  rewrite Ho, Hb, (cell_zeros _ _ _ _ _ _ Hz Hi Hj). cbn. auto.
Qed.

Lemma densities_count_cells_witness :
  exists orange blue,
    densities np_limit_sample sample_chamber = inr (orange, blue) /\
    cell orange 0 0 = Some 1 /\ cell blue 2 1 = Some 1 /\
    cell orange 2 1 = Some 0.
Proof.
  destruct (densities_count_cells np_limit_sample sample_chamber eq_refl
              ltac:(cbn; lia) ltac:(cbn; lia) ltac:(repeat constructor))
    as (o & b & Hd & Hcells).
  exists o, b. split; [exact Hd |].
  destruct (Hcells 0 0 ltac:(cbn; lia) ltac:(cbn; lia)) as [H00 _].
  destruct (Hcells 2 1 ltac:(cbn; lia) ltac:(cbn; lia)) as [H21o H21b].
  repeat split; assumption.
Defined.

Lemma Zsum_repeat_zero (n : nat) : Zsum (repeat 0 n) = 0.
Proof.
  induction n as [| n IH]; [reflexivity |].
  cbn [repeat]. now rewrite Zsum_cons, IH.
Qed.

Lemma row_sum_bump (W H : nat) (g : grid) (i' j' i : nat) :
  shape W H g -> (j' < H)%nat ->
  option_map Zsum (nth_error (bump g i' j') i) =
  option_map (fun s => s + (if (i =? i')%nat then 1 else 0))
             (option_map Zsum (nth_error g i)).
Proof.
  intros [_ Hrows] Hj. unfold bump. rewrite nth_error_update_nth.
  destruct (nth_error g i) as [row |] eqn:Er;
    [| destruct (i =? i')%nat; reflexivity].
  assert (List.length row = H) as Hlen.
  { rewrite Forall_forall in Hrows. apply Hrows.
    eapply nth_error_In; eauto. }
  destruct (i =? i')%nat; cbn [option_map]; f_equal.
  - apply Zsum_incr. lia.
  - lia.
Qed.

(** The loop over particles inside the chamber adds to the sum of each row
    the number of particles of the array's colour with that [int(x)]. *)
Lemma fill_densities_rows (ps : list Particle) (w h : Z) :
  all_in_chamber w h ps ->
  forall orange blue,
    shape (Z.to_nat w) (Z.to_nat h) orange ->
    shape (Z.to_nat w) (Z.to_nat h) blue ->
    exists orange' blue',
      fill_densities ps w h orange blue = inr (orange', blue') /\
      forall i, 0 <= i ->
        option_map Zsum (nth_error orange' (Z.to_nat i)) =
          option_map (fun s => s + column_count "orange" i ps)
                     (option_map Zsum (nth_error orange (Z.to_nat i))) /\
        option_map Zsum (nth_error blue' (Z.to_nat i)) =
          option_map (fun s => s + column_count "blue" i ps)
                     (option_map Zsum (nth_error blue (Z.to_nat i))).
Proof.
  induction 1 as [| p ps [Hx Hy] Hall IH]; intros orange blue So Sb.
  - exists orange, blue. split; [reflexivity |].
    intros i _. unfold column_count. cbn [filter List.length Z.of_nat].
    split.
    + destruct (nth_error orange _); cbn; f_equal; lia.
    + destruct (nth_error blue _); cbn; f_equal; lia.
  - destruct (bump_at_index w h p Hx Hy)
      as (pi & pj & Ix & Iy & Bx & By & Hb).
    cbn [fill_densities].
    assert (forall i, 0 <= i ->
              (Z.to_nat i =? Z.to_nat pi)%nat = int_is (x p) i) as Hidx.
    { intros i Hi. unfold int_is. rewrite Ix, to_nat_eqb by lia.
      apply Z.eqb_sym. }
    assert (forall g, shape (Z.to_nat w) (Z.to_nat h) g ->
              shape (Z.to_nat w) (Z.to_nat h)
                    (bump g (Z.to_nat pi) (Z.to_nat pj))) as Hshape.
    { intros g Sg. apply bump_total; [assumption | lia | lia]. }
    destruct (String.eqb (color p) "orange") eqn:Eo.
    + assert (String.eqb (color p) "blue" = false) as Eb.
      { pose proof Eo as E. apply String.eqb_eq in E. now rewrite E. }
      rewrite Hb. cbn [ebind].
      destruct (IH _ blue (Hshape _ So) Sb) as (o' & b' & -> & Hrows).
      exists o', b'. split; [reflexivity |].
      intros i Hi. destruct (Hrows i Hi) as [Ho Hbl].
      rewrite Ho, Hbl, (row_sum_bump _ _ _ _ _ _ So) by lia.
      rewrite !column_count_cons, Hidx, Eo, Eb by assumption. cbn [andb].
      split.
      * destruct (nth_error orange (Z.to_nat i)); cbn [option_map];
          f_equal; lia.
      * destruct (nth_error blue (Z.to_nat i)); cbn [option_map];
          f_equal; lia.
    + destruct (String.eqb (color p) "blue") eqn:Eb.
      * rewrite Hb. cbn [ebind].
        destruct (IH orange _ So (Hshape _ Sb)) as (o' & b' & -> & Hrows).
        exists o', b'. split; [reflexivity |].
        intros i Hi. destruct (Hrows i Hi) as [Ho Hbl].
        rewrite Ho, Hbl, (row_sum_bump _ _ _ _ _ _ Sb) by lia.
        rewrite !column_count_cons, Hidx, Eo, Eb by assumption. cbn [andb].
        split.
        -- destruct (nth_error orange (Z.to_nat i)); cbn [option_map];
             f_equal; lia.
        -- destruct (nth_error blue (Z.to_nat i)); cbn [option_map];
             f_equal; lia.
      * destruct (IH orange blue So Sb) as (o' & b' & -> & Hrows).
        exists o', b'. split; [reflexivity |].
        intros i Hi. destruct (Hrows i Hi) as [Ho Hbl].
        rewrite Ho, Hbl, !column_count_cons, Eo, Eb. cbn [andb].
        split.
        -- destruct (nth_error orange (Z.to_nat i)); cbn [option_map];
             f_equal; lia.
        -- destruct (nth_error blue (Z.to_nat i)); cbn [option_map];
             f_equal; lia.
Qed.

(** The series ConcentrationDensity plots are per-column counts: in a
    chamber of non-negative dimensions for which numpy can hold the arrays
    and whose particles are all inside, the series are computed and the
    entry at [x = i] of the orange (blue) series is the number of orange
    (blue) particles with [int(x) = i]. *)
Theorem concentration_series_count_columns np_limit (c : Chamber) :
  np_limit (width c) (height c) = None ->
  0 <= width c -> 0 <= height c ->
  all_in_chamber (width c) (height c) (particles c) ->
  exists orange_concentration blue_concentration,
    concentrations np_limit c =
      inr (orange_concentration, blue_concentration) /\
    forall i, 0 <= i < width c ->
      nth_error orange_concentration (Z.to_nat i) =
        Some (column_count "orange" i (particles c)) /\
      nth_error blue_concentration (Z.to_nat i) =
        Some (column_count "blue" i (particles c)).
Proof.
  intros Hl Hw Hh Hall. unfold concentrations, densities.
  destruct (zeros_shape np_limit (width c) (height c) Hl Hw Hh)
    as (z & Hz & Sz & _).
  rewrite Hz. cbn [ebind].
  destruct (fill_densities_rows _ _ _ Hall z z Sz Sz) as (o & b & -> & Hrows).
  cbn [ebind fst snd]. eexists _, _. split; [reflexivity |].
  intros i Hi. destruct (Hrows i ltac:(lia)) as [Ho Hb].
  unfold sum_axis1. rewrite !nth_error_map, Ho, Hb.
  assert (nth_error z (Z.to_nat i) = Some (repeat 0 (Z.to_nat (height c))))
    as ->.
  { unfold zeros in Hz. rewrite Hl in Hz.
    destruct ((width c <? 0) || (height c <? 0)); [discriminate |].
    inversion Hz; subst. apply nth_error_repeat. lia. }
  cbn [option_map]. rewrite Zsum_repeat_zero. auto.
Qed.

Lemma concentration_series_count_columns_witness :
  exists oc bc,
    concentrations np_limit_sample sample_chamber = inr (oc, bc) /\
    nth_error oc 0 = Some 1 /\ nth_error bc 2 = Some 1 /\
    nth_error bc 0 = Some 0.
Proof.
  destruct (concentration_series_count_columns np_limit_sample
              sample_chamber eq_refl
              ltac:(cbn; lia) ltac:(cbn; lia) ltac:(repeat constructor))
    as (oc & bc & Hc & Hcols).
  exists oc, bc. split; [exact Hc |].
  destruct (Hcols 0 ltac:(cbn; lia)) as [H0o H0b].
  destruct (Hcols 2 ltac:(cbn; lia)) as [_ H2b].
  repeat split; assumption.
Defined.

(** ** Which particles the probes read, and in which order *)

Lemma bump_at_by_index (g : grid) (w h : Z) (p : Particle) :
  bump_at g w h p =
  (ij <~ particle_index w h p ;; inr (bump g (fst ij) (snd ij))).
Proof.
  unfold bump_at, particle_index.
  destruct (to_int (x p)); cbn [ebind]; [reflexivity |].
  destruct (to_int (y p)); cbn [ebind]; [reflexivity |].
  destruct (norm_index _ w); cbn [ebind]; [reflexivity |].
  destruct (norm_index _ h); reflexivity.
Qed.

Lemma fill_densities_filter (ps : list Particle) (w h : Z)
      (orange blue : grid) :
  fill_densities (filter counted ps) w h orange blue =
  fill_densities ps w h orange blue.
Proof.
  revert orange blue. induction ps as [| p ps IH]; intros orange blue;
    [reflexivity |].
  cbn [filter fill_densities]. unfold counted.
  destruct (String.eqb (color p) "orange") eqn:Eo; cbn [orb].
  - cbn [fill_densities]. rewrite Eo.
    destruct (bump_at orange w h p); cbn [ebind]; [reflexivity | apply IH].
  - destruct (String.eqb (color p) "blue") eqn:Eb.
    + cbn [fill_densities]. rewrite Eo, Eb.
      destruct (bump_at blue w h p); cbn [ebind]; [reflexivity | apply IH].
    + apply IH.
Qed.

(** Both probes read only the orange and the blue particles: a particle of
    any other colour changes neither the arrays nor the outcome, whatever
    its position (not even a NaN or an infinite coordinate raises). *)
Theorem probes_ignore_other_colours np_limit log2 np_sum (c : Chamber) :
  densities np_limit (with_particles (filter counted (particles c)) c) =
    densities np_limit c /\
  concentrations np_limit (with_particles (filter counted (particles c)) c) =
    concentrations np_limit c /\
  total_entropy np_limit log2 np_sum
    (with_particles (filter counted (particles c)) c) =
    total_entropy np_limit log2 np_sum c.
Proof.
  assert (densities np_limit (with_particles (filter counted (particles c)) c) =
          densities np_limit c) as Hd.
  { unfold densities, with_particles. cbn [width height particles].
    destruct (zeros np_limit (width c) (height c)); cbn [ebind];
      [reflexivity |].
    apply fill_densities_filter. }
  unfold concentrations, total_entropy. now rewrite Hd.
Qed.

Lemma update_nth_comm {A : Type} (f g : A -> A) (n m : nat) (l : list A) :
  (forall a, f (g a) = g (f a)) ->
  update_nth f n (update_nth g m l) = update_nth g m (update_nth f n l).
Proof.
  intro Hfg. revert n m. induction l as [| a l IH]; intros [| n] [| m]; cbn;
    try reflexivity.
  - now rewrite Hfg.
  - now rewrite IH.
Qed.

Lemma bump_comm (g : grid) (i j i' j' : nat) :
  bump (bump g i j) i' j' = bump (bump g i' j') i j.
Proof.
  unfold bump. apply update_nth_comm. intro row.
  apply update_nth_comm. intro n. reflexivity.
Qed.

Lemma fill_densities_swap (p q : Particle) (ps : list Particle) (w h : Z)
      (orange blue : grid) (d : grid * grid) :
  fill_densities (p :: q :: ps) w h orange blue = inr d ->
  fill_densities (q :: p :: ps) w h orange blue = inr d.
Proof.
  assert (forall g, bump_at g w h p =
            match particle_index w h p with
            | inl e => inl e
            | inr ij => inr (bump g (fst ij) (snd ij))
            end) as Hp by (intro g; apply bump_at_by_index).
  assert (forall g, bump_at g w h q =
            match particle_index w h q with
            | inl e => inl e
            | inr ij => inr (bump g (fst ij) (snd ij))
            end) as Hq by (intro g; apply bump_at_by_index).
  cbn [fill_densities].
  destruct (particle_index w h p) as [e | [i j]],
           (particle_index w h q) as [e' | [i' j']];
    cbn [fst snd] in Hp, Hq;
    destruct (String.eqb (color p) "orange"),
             (String.eqb (color p) "blue"),
             (String.eqb (color q) "orange"),
             (String.eqb (color q) "blue");
    repeat (rewrite ?Hp, ?Hq; cbn [ebind]);
    rewrite ?(bump_comm _ i' j' i j);
    intro H; try discriminate H; exact H.
Qed.

Lemma fill_densities_perm (ps ps' : list Particle) (w h : Z) :
  Permutation ps ps' ->
  forall orange blue d,
    fill_densities ps w h orange blue = inr d ->
    fill_densities ps' w h orange blue = inr d.
Proof.
  induction 1 as [| p l l' _ IH | p q l | l1 l2 l3 _ IH1 _ IH2];
    intros orange blue d H.
  - exact H.
  - cbn [fill_densities] in *.
    destruct (String.eqb (color p) "orange").
    + destruct (bump_at orange w h p); cbn [ebind] in *;
        [discriminate | now apply IH].
    + destruct (String.eqb (color p) "blue").
      * destruct (bump_at blue w h p); cbn [ebind] in *;
          [discriminate | now apply IH].
      * now apply IH.
  - now apply fill_densities_swap.
  - apply IH2, IH1, H.
Qed.

(** The probes do not depend on the order of the particles: when the
    arrays can be built for the particles in one order, they can be built
    in any other order, and are the same arrays; so are the concentration
    series and the total entropy. *)
Theorem probes_ignore_particle_order np_limit log2 np_sum
        (c : Chamber) (ps' : list Particle) (d : grid * grid) :
  Permutation (particles c) ps' ->
  densities np_limit c = inr d ->
  densities np_limit (with_particles ps' c) = inr d /\
  concentrations np_limit (with_particles ps' c) = concentrations np_limit c /\
  total_entropy np_limit log2 np_sum (with_particles ps' c) =
    total_entropy np_limit log2 np_sum c.
Proof.
  intros Hperm Hd.
  assert (densities np_limit (with_particles ps' c) = inr d) as Hd'.
  { unfold densities, with_particles in *. cbn [width height particles].
    destruct (zeros np_limit (width c) (height c)) as [e | z]; cbn [ebind] in *;
      [discriminate |].
    exact (fill_densities_perm _ _ _ _ Hperm z z d Hd). }
  split; [exact Hd' |].
  unfold concentrations, total_entropy. now rewrite Hd, Hd'.
Qed.

Lemma probes_ignore_particle_order_witness :
  densities np_limit_sample
    (with_particles (rev (particles sample_chamber)) sample_chamber) =
    densities np_limit_sample sample_chamber /\
  concentrations np_limit_sample
    (with_particles (rev (particles sample_chamber)) sample_chamber) =
    inr ([1; 0; 0], [0; 0; 1]).
Proof.
  destruct (densities np_limit_sample sample_chamber) as [e | d] eqn:Hd;
    [vm_compute in Hd; discriminate |].
  destruct (probes_ignore_particle_order np_limit_sample log2_sample
              sum_sample sample_chamber (rev (particles sample_chamber)) d
              (Permutation_rev _) Hd) as (Hd' & Hc & _).
  split; [exact Hd' |]. rewrite Hc. reflexivity.
Defined.

(** ** When the probes raise *)

Lemma norm_index_ok (i n : Z) :
  (exists k, norm_index i n = inr k) <-> - n <= i < n.
Proof.
  unfold norm_index. split.
  - intros [k H]. destruct ((- n <=? i) && (i <? n)) eqn:E; [| discriminate].
    apply andb_prop in E. destruct E as [E1 E2].
    apply Z.leb_le in E1. apply Z.ltb_lt in E2. lia.
  - intro H.
    replace (- n <=? i) with true by (symmetry; apply Z.leb_le; lia).
    replace (i <? n) with true by (symmetry; apply Z.ltb_lt; lia).
    cbn [andb]. eauto.
Qed.

Lemma particle_index_ok (w h : Z) (p : Particle) :
  (exists ij, particle_index w h p = inr ij) <-> indexable w h p.
Proof.
  unfold particle_index, indexable. split.
  - intros [ij H].
    destruct (to_int (x p)) as [e | ix]; cbn [ebind] in H; [discriminate |].
    destruct (to_int (y p)) as [e | iy]; cbn [ebind] in H; [discriminate |].
    destruct (norm_index ix w) as [e | i] eqn:Ei; cbn [ebind] in H;
      [discriminate |].
    destruct (norm_index iy h) as [e | j] eqn:Ej; cbn [ebind] in H;
      [discriminate |].
    exists ix, iy. repeat split; try reflexivity.
    + apply (proj1 (norm_index_ok ix w)); eauto.
    + apply (proj1 (norm_index_ok ix w)); eauto.
    + apply (proj1 (norm_index_ok iy h)); eauto.
    + apply (proj1 (norm_index_ok iy h)); eauto.
  - intros (i & j & -> & -> & Hi & Hj). cbn [ebind].
    destruct (proj2 (norm_index_ok i w) Hi) as [k ->].
    destruct (proj2 (norm_index_ok j h) Hj) as [l ->].
    cbn [ebind]. eauto.
Qed.

Lemma fill_densities_ok (ps : list Particle) (w h : Z) :
  forall orange blue,
    (exists d, fill_densities ps w h orange blue = inr d) <->
    Forall (fun p => counted p = true -> indexable w h p) ps.
Proof.
  induction ps as [| p ps IH]; intros orange blue.
  - split; [constructor | cbn; eauto].
  - cbn [fill_densities]. unfold counted at 1. rewrite !bump_at_by_index.
    pose proof (particle_index_ok w h p) as Hidx.
    destruct (String.eqb (color p) "orange") eqn:Eo; cbn [orb].
    + destruct (particle_index w h p) as [e | ij]; cbn [ebind].
      * split; [intros [d H]; discriminate |].
        intro H. inversion H as [| ? ? Hp _]; subst.
        unfold counted in Hp. rewrite Eo in Hp.
        destruct (proj2 Hidx (Hp eq_refl)) as [ij H']. discriminate.
      * rewrite IH. split.
        -- intro H. constructor; [| assumption].
           intros _. apply Hidx. eauto.
        -- intro H. now inversion H.
    + destruct (String.eqb (color p) "blue") eqn:Eb.
      * destruct (particle_index w h p) as [e | ij]; cbn [ebind].
        -- split; [intros [d H]; discriminate |].
           intro H. inversion H as [| ? ? Hp _]; subst.
           unfold counted in Hp. rewrite Eo, Eb in Hp.
           destruct (proj2 Hidx (Hp eq_refl)) as [ij H']. discriminate.
        -- rewrite IH. split.
           ++ intro H. constructor; [| assumption].
              intros _. apply Hidx. eauto.
           ++ intro H. now inversion H.
      * rewrite IH. split.
        -- intro H. constructor; [| assumption].
           unfold counted. rewrite Eo, Eb. discriminate.
        -- intro H. now inversion H.
Qed.

(** Exactly when the probes can build their arrays: numpy can hold arrays
    of the chamber's size, the chamber has no negative dimension, and every
    orange or blue particle has coordinates [int] accepts (no NaN, no
    infinity) with [int(x)] in [-width, width) and [int(y)] in
    [-height, height), the indices numpy accepts.  In every other case both
    probes raise. *)
Theorem probes_succeed_iff_indexable np_limit (c : Chamber) :
  (exists d, densities np_limit c = inr d) <->
  np_limit (width c) (height c) = None /\
  0 <= width c /\ 0 <= height c /\
  Forall (fun p => counted p = true -> indexable (width c) (height c) p)
         (particles c).
Proof.
  unfold densities, zeros.
  destruct (np_limit (width c) (height c)) as [r |].
  { cbn [ebind].
    split; [intros [d H]; discriminate | intros [H _]; discriminate]. }
  destruct (width c <? 0) eqn:Ew; cbn [orb].
  { apply Z.ltb_lt in Ew. cbn [ebind].
    split; [intros [d H]; discriminate | lia]. }
  destruct (height c <? 0) eqn:Eh.
  { apply Z.ltb_lt in Eh. cbn [ebind].
    split; [intros [d H]; discriminate | lia]. }
  apply Z.ltb_ge in Ew, Eh. cbn [ebind]. rewrite fill_densities_ok.
  split; [auto | now intros (_ & _ & _ & H)].
Qed.

(** On a platform with 64-bit sizes and 1 GiB for an array: the arrays of
    the sample chamber are built; those of an empty chamber of
    2^31 x 2^31 cells are not (array too big), nor those of an empty
    chamber of 10^6 x 10^6 cells (no memory). *)
Lemma probes_succeed_iff_indexable_witness :
  (exists d, densities np_limit_sample sample_chamber = inr d) /\
  densities np_limit_sample (mkChamber (2 ^ 31) (2 ^ 31) (PInt 75) [] []) =
    inl ValueError /\
  densities np_limit_sample (mkChamber 1000000 1000000 (PInt 75) [] []) =
    inl MemoryError /\
  ~ (exists d, densities np_limit_sample
                 (mkChamber (2 ^ 31) (2 ^ 31) (PInt 75) [] []) = inr d).
Proof.
  split; [eexists; reflexivity |].
  split; [reflexivity |]. split; [reflexivity |].
  intro H.
  apply (proj1 (probes_succeed_iff_indexable np_limit_sample
                  (mkChamber (2 ^ 31) (2 ^ 31) (PInt 75) [] []))) in H.
  destruct H as [H _]. discriminate H.
Defined.

Lemma probe_step_class np_limit log2 np_sum
      (hk : Probe) (c : Chamber) (cycle : Z) (wd : world) :
  match updated np_limit log2 np_sum hk c cycle wd with
  | (Val hk', _) => same_class hk hk'
  | _ => True
  end.
Proof.
  destruct hk as [| | mx cy]; cbn [updated].
  - exact I.
  - unfold ConcentrationDensity_updated, concentrations.
    destruct (densities np_limit c) as [e | d]; cbn; exact I.
  - unfold SystemEntropy_updated, total_entropy.
    destruct (densities np_limit c) as [e | d]; cbn; exact I.
Qed.

(** A probe fails cleanly: whatever its outcome it takes no random draw;
    when it raises, the exception is the one building the arrays raised,
    and nothing was drawn on the screen before (the log is as it was). *)
Theorem probe_fails_cleanly np_limit log2 np_sum
        (hk : Probe) (c : Chamber) (cycle : Z) (wd : world) :
  match updated np_limit log2 np_sum hk c cycle wd with
  | (Val hk', wd') => tape wd' = tape wd /\ same_class hk hk'
  | (Exc e, wd') => wd' = wd /\ densities np_limit c = inl e
  | (Starved, _) => False
  end.
Proof.
  destruct hk as [| | mx cy]; cbn [updated].
  - cbn. auto.
  - unfold ConcentrationDensity_updated, concentrations.
    destruct (densities np_limit c) as [e | d]; cbn; auto.
  - unfold SystemEntropy_updated, total_entropy.
    destruct (densities np_limit c) as [e | d]; cbn; auto.
Qed.

(** [Chamber.update] leaves the hooks in place: a returning update has
    the same number of hooks, in the same order, each of the class it had
    (only the fields of a SystemEntropy hook can differ). *)
Theorem update_keeps_hooks np_limit log2 np_sum
        (c c' : Chamber) (cycle : Z) (w w' : world) :
  update np_limit log2 np_sum c cycle w = (Val c', w') ->
  Forall2 same_class (hooks c) (hooks c').
Proof.
  unfold update. intro H. run_val H.
  apply ret_val in H. destruct H as [<- _]. cbn [hooks].
  unfold notify_all in Hrun0. cbn [hooks] in Hrun0.
  apply (for_each_Forall2 _ same_class) in Hrun0; [exact Hrun0 |].
  intros hk hk' wa wb Hu.
  apply bind_val in Hu. destruct Hu as (u & wc & _ & Hu).
  match type of Hu with
  | updated _ _ _ _ ?mc _ _ = _ =>
      pose proof (probe_step_class np_limit log2 np_sum hk mc cycle wc) as Hc
  end.
  rewrite Hu in Hc. exact Hc.
Qed.

Lemma update_keeps_hooks_witness :
  Forall2 same_class [ConcentrationDensity; SystemEntropy_init]
          (hooks sample_after).
Proof.
  exact (update_keeps_hooks np_limit_sample log2_sample sum_sample
           sample_chamber
           sample_after 7 sample_world (snd sample_update)
           sample_update_returns).
Defined.
